(** * athena-client: query execution lifecycle

    A shallow embedding of [request.ts] (the retrying wrappers around the
    Athena SDK calls) and of [client.ts] (admission control, the polling
    loop with its timeout, and the promise/stream views of one execution),
    followed by the properties of the specification stated over it.

    Conventions of the embedding.
    - A JavaScript [number] read from the configuration is an integer [Z];
      an optional field is an [option], [None] standing for [undefined].
    - The SDK object [this.athena] is a script: for each operation, the
      list of replies the SDK passes to the successive callbacks.  When the
      script is exhausted the callback is never invoked, the promise stays
      pending and the model yields [None].
    - Time is a logical clock in milliseconds, advanced at every
      suspension point by the latency of the reply or the timer delay. *)

From Stdlib Require Import ZArith List String Ascii Bool Lia.
Import ListNotations.
Local Open Scope string_scope.
Local Open Scope list_scope.
Local Open Scope Z_scope.

(** ** JavaScript values used by the sources *)

Module JS.

(** [v || d] on an optional number: [undefined] and [0] are falsy. *)
Definition or (v : option Z) (d : Z) : Z :=
  match v with
  | Some n => if n =? 0 then d else n
  | None => d
  end.

(** [v || d] on an optional string: [undefined] and [''] are falsy. *)
Definition or_str (v : option string) (d : string) : string :=
  match v with
  | Some EmptyString => d
  | Some s => s
  | None => d
  end.

(** [if (v)] on an optional number. *)
Definition truthy (v : option Z) : bool :=
  match v with
  | Some n => negb (n =? 0)
  | None => false
  end.

(** An [Error] object; [AWSError] adds the [code]. *)
Record Error := { code : option string; message : string }.

Definition new_Error (msg : string) : Error :=
  {| code := None; message := msg |}.

(** The state a promise settles in. *)
Inductive Settled (A : Type) :=
| Resolved (value : A)
| Rejected (err : Error).
Arguments Resolved {A} value.
Arguments Rejected {A} err.

(** Node's timers: a delay below 1 or above 2^31-1 is set to 1. *)
Definition timerDelay (ms : Z) : Z :=
  if (ms <? 1) || (2147483647 <? ms) then 1 else ms.

(** A number handed to [setTimeout]: an integer the code has computed
    exactly, or the double that [Math.pow] returns for a power [real]
    that no double holds (a double next to it, or an infinity). *)
Inductive Number :=
| Int (ms : Z)
| Rounded (real : Z).
Coercion Int : Z >-> Number.

(** The integers that a double holds exactly: those below 2^53 in
    absolute value, and beyond them the multiples of the spacing of the
    doubles of their magnitude, up to the largest double. *)
Definition representable (z : Z) : bool :=
  let a := Z.abs z in
  (a <? 2 ^ 53)
  || ((a <? 2 ^ 1024) && (a mod 2 ^ (Z.log2 a - 52) =? 0)).

(** [Math.pow(base, exponent)] on an integer base and a natural
    exponent: the power itself when a double holds it, a rounded double
    otherwise. *)
Definition Math_pow (base : Z) (exponent : nat) : Number :=
  let power := base ^ Z.of_nat exponent in
  if representable power then Int power else Rounded power.

(** Node's timers on a number: a rounded power is at least 2^53 in
    absolute value, outside the delays that are kept. *)
Definition timerDelayOf (ms : Number) : Z :=
  match ms with
  | Int z => timerDelay z
  | Rounded _ => 1
  end.

End JS.
Import JS.

(** ** The observable actions of one execution *)

Inductive Operation :=
| StartQueryExecution
| GetQueryExecution
| StopQueryExecution
| GetQueryResults.

(** What [athena.getQueryResults] hands to its callback: the raw page. *)
Record ResultPage := {
  Rows : list (list string);
  NextToken : option string }.

(** The events of the csv transform that [execute] listens to. *)
Inductive StreamEvent :=
| EvData (record : list string)
| EvQueryEnd (q : ResultPage)
| EvEnd
| EvError (err : Error).

(** The trace is ghost state: it records what the code does, in order. *)
Inductive Action :=
| Call (op : Operation)     (* one call of the SDK *)
| SetTimeout (ms : Number)  (* [setTimeout(loopFunc, wait)] of a retry *)
| Sleep (ms : Z)            (* [await util.sleep(ms)] *)
| Acquire                   (* [this.startQuery()] *)
| Release                   (* [this.endQuery()] *)
| Emit (ev : StreamEvent).  (* [csvTransform.emit] and [csvTransform.end] *)

Definition is_call (op : Operation) (a : Action) : bool :=
  match a, op with
  | Call StartQueryExecution, StartQueryExecution
  | Call GetQueryExecution, GetQueryExecution
  | Call StopQueryExecution, StopQueryExecution
  | Call GetQueryResults, GetQueryResults => true
  | _, _ => false
  end.

Definition is_release (a : Action) : bool :=
  match a with Release => true | _ => false end.

Definition is_acquire (a : Action) : bool :=
  match a with Acquire => true | _ => false end.

(** The waits handed to [setTimeout] by the retries, in order. *)
Fixpoint backoffs (l : list Action) : list Number :=
  match l with
  | [] => []
  | SetTimeout ms :: l' => ms :: backoffs l'
  | _ :: l' => backoffs l'
  end.

Definition calls (op : Operation) (l : list Action) : nat :=
  List.length (filter (is_call op) l).

Definition releases (l : list Action) : nat :=
  List.length (filter is_release l).

Definition acquisitions (l : list Action) : nat :=
  List.length (filter is_acquire l).

Fixpoint emitted (l : list Action) : list StreamEvent :=
  match l with
  | [] => []
  | Emit ev :: l' => ev :: emitted l'
  | _ :: l' => emitted l'
  end.

(** ** request.ts *)

Module Request.

Record AthenaRequestConfig := {
  bucketUri : string;
  baseRetryWait : option Z;
  retryWaitMax : option Z;
  retryCountMax : option Z;
  database : option string;
  encryptionOption : option string;
  encryptionKmsKey : option string;
  workGroup : option string }.

Definition defaultBaseRetryWait : Z := 200.
Definition defaultRetryWaitMax : Z := 10000.
Definition defaultRetryCountMax : Z := 10.

(** The [Status] of a [QueryExecution]. *)
Record QueryExecution := {
  State : string;
  StateChangeReason : option string }.

(** What the SDK passes to a callback: [(err, null)] or [(null, data)]. *)
Inductive Reply (A : Type) :=
| Failure (err : Error)
| Success (data : A).
Arguments Failure {A} err.
Arguments Success {A} data.

(** One scripted reply and the time the SDK takes to deliver it. *)
Record Scripted (A : Type) := { latency : nat; reply : Reply A }.
Arguments latency {A} _.
Arguments reply {A} _.
Arguments Build_Scripted {A} latency reply.

(** The run of one promise-returning method. *)
Record Run (A : Type) := {
  settled : Settled A;
  actions : list Action;
  elapsed : Z }.
Arguments settled {A} _.
Arguments actions {A} _.
Arguments elapsed {A} _.
Arguments Build_Run {A} settled actions elapsed.

Definition isRetryException (err : Error) : bool :=
  match code err with
  | Some c => String.eqb c "ThrottlingException"
              || String.eqb c "TooManyRequestsException"
  | None => false
  end
  || String.eqb (message err) "Query exhausted resources at this scale factor".

Definition canRetry (retryCount : nat) (config : AthenaRequestConfig) : bool :=
  Z.of_nat retryCount <? JS.or (retryCountMax config) defaultRetryCountMax.

(** The wait of [startQuery] at [retryCount] (read before [retryCount++]). *)
Definition startQueryWait (config : AthenaRequestConfig) (retryCount : nat) : Z :=
  let wait := JS.or (baseRetryWait config) defaultBaseRetryWait
              * 2 ^ Z.of_nat retryCount in
  Z.min wait (JS.or (retryWaitMax config) defaultRetryWaitMax).

(** The wait of [stopQuery] at [retryCount]:
    [Math.pow(config.baseRetryWait || defaultBaseRetryWait, retryCount++)]. *)
Definition stopQueryWait (config : AthenaRequestConfig) (retryCount : nat)
  : Number :=
  Math_pow (JS.or (baseRetryWait config) defaultBaseRetryWait) retryCount.

(** The wait of [getQueryExecution] at [retryCount], computed alike. *)
Definition getQueryExecutionWait (config : AthenaRequestConfig)
           (retryCount : nat) : Number :=
  Math_pow (JS.or (baseRetryWait config) defaultBaseRetryWait) retryCount.

Section RetryLoop.
Context {A : Type}.
Variable op : Operation.
Variable wait : nat -> Number.
Variable config : AthenaRequestConfig.

(** The callback settles the promise. *)
Definition settle (r : Scripted A) (s : Settled A) : Run A :=
  {| settled := s; actions := [Call op]; elapsed := Z.of_nat (latency r) |}.

(** The callback schedules [loopFunc] again after [w] milliseconds. *)
Definition again (r : Scripted A) (w : Number) (rest : Run A) : Run A :=
  {| settled := settled rest;
     actions := Call op :: SetTimeout w :: actions rest;
     elapsed := Z.of_nat (latency r) + timerDelayOf w + elapsed rest |}.

(** [loopFunc] of [startQuery], [stopQuery] and [getQueryExecution]:
    the three closures differ in the SDK operation and in [wait]. *)
Fixpoint loopFunc (retryCount : nat) (athena : list (Scripted A))
  : option (Run A) :=
  match athena with
  | [] => None
  | r :: later =>
      match reply r with
      | Failure err =>
          if isRetryException err && canRetry retryCount config
          then option_map (again r (wait retryCount))
                          (loopFunc (S retryCount) later)
          else Some (settle r (Rejected err))
      | Success data => Some (settle r (Resolved data))
      end
  end.
End RetryLoop.

(** [startQuery]: the scripted datum is [data.QueryExecutionId]. *)
Definition startQuery (athena : list (Scripted string))
           (query : string) (config : AthenaRequestConfig)
  : option (Run string) :=
  loopFunc StartQueryExecution
           (fun retryCount => Int (startQueryWait config retryCount))
           config 0 athena.

Definition stopQuery (athena : list (Scripted unit))
           (queryId : string) (config : AthenaRequestConfig)
  : option (Run unit) :=
  loopFunc StopQueryExecution (stopQueryWait config) config 0 athena.

(** [getQueryExecution]: the scripted datum is [data.QueryExecution]. *)
Definition getQueryExecution (athena : list (Scripted QueryExecution))
           (queryId : string) (config : AthenaRequestConfig)
  : option (Run QueryExecution) :=
  loopFunc GetQueryExecution (getQueryExecutionWait config) config 0 athena.

(** The [switch] of [checkQuery] followed by its [reject]/[resolve]. *)
Definition onQueryExecution (queryExecution : QueryExecution) : Settled bool :=
  let state := State queryExecution in
  if String.eqb state "QUEUED" || String.eqb state "RUNNING" then
    Resolved false
  else if String.eqb state "SUCCEEDED" then
    Resolved true
  else if String.eqb state "FAILED" then
    Rejected (new_Error (JS.or_str (StateChangeReason queryExecution)
                                   "FAILED: Execution Error"))
  else if String.eqb state "CANCELLED" then
    Rejected (new_Error "FAILED: Query CANCELLED")
  else
    Rejected (new_Error (String.append "FAILED: UnKnown State " state)).

Definition checkQuery (athena : list (Scripted QueryExecution))
           (queryId : string) (config : AthenaRequestConfig)
  : option (Run bool) :=
  match getQueryExecution athena queryId config with
  | None => None
  | Some run =>
      Some {| settled := match settled run with
                         | Resolved queryExecution => onQueryExecution queryExecution
                         | Rejected err => Rejected err
                         end;
              actions := actions run;
              elapsed := elapsed run |}
  end.

(** [getQueryResults]: one call, its callback rejects or resolves. *)
Definition getQueryResults (athena : list (Scripted ResultPage))
           (QueryExecutionId : string) (MaxResults : Z)
           (NextToken : option string)
  : option (Run ResultPage) :=
  match athena with
  | [] => None
  | r :: _ =>
      match reply r with
      | Failure err => Some (settle GetQueryResults r (Rejected err))
      | Success data => Some (settle GetQueryResults r (Resolved data))
      end
  end.

End Request.


(** ** client.ts *)

Module Config.

(** [AthenaClientConfig extends AthenaRequestConfig]. *)
Record AthenaClientConfig := {
  request :> Request.AthenaRequestConfig;
  pollingInterval : option Z;
  queryTimeout : option Z;
  concurrentExecMax : option Z;
  execRightCheckInterval : option Z;
  skipFetchResult : option bool }.

End Config.

Module Client.
Import Request.
Export Config.

(** The declared shape of what [toPromise] resolves to. *)
Record AthenaExecutionResult := {
  declared_records : list (list string);
  declared_queryExecution : QueryExecution }.

Definition defaultPollingInterval : Z := 1000.
Definition defaultQueryTimeout : Z := 0.
Definition defaultExecRightCheckInterval : Z := 100.

(** The two module-level variables shared by every client of the process. *)
Record Globals := {
  concurrentExecMax : Z;
  concurrentExecNum : Z }.

Definition initial : Globals :=
  {| concurrentExecMax := 5; concurrentExecNum := 0 |}.

Definition setConcurrentExecMax (val : Z) (g : Globals) : Globals :=
  {| concurrentExecMax := val; concurrentExecNum := concurrentExecNum g |}.

(** The constructor: the globals it leaves and the error it throws, if any. *)
Definition constructor (config : AthenaClientConfig) (g : Globals)
  : Globals * option Error :=
  let g' := match Config.concurrentExecMax config with
            | Some val => if JS.truthy (Some val)
                          then setConcurrentExecMax val g else g
            | None => g
            end in
  let kms := match encryptionOption config with
             | Some o => String.eqb o "SSE_KMS" || String.eqb o "CSE_KMS"
             | None => false
             end in
  (g', if kms && match encryptionKmsKey config with None => true | Some _ => false end
       then Some (new_Error "KMS key required") else None).

Definition canStartQuery (g : Globals) : bool :=
  concurrentExecNum g <? concurrentExecMax g.

(** [Math.min(++concurrentExecNum, concurrentExecMax)]. *)
Definition startQuery (g : Globals) : Globals :=
  {| concurrentExecMax := concurrentExecMax g;
     concurrentExecNum := Z.min (concurrentExecNum g + 1) (concurrentExecMax g) |}.

(** [Math.max(--concurrentExecNum, 0)]. *)
Definition endQuery (g : Globals) : Globals :=
  {| concurrentExecMax := concurrentExecMax g;
     concurrentExecNum := Z.max (concurrentExecNum g - 1) 0 |}.

(** What any code of the process can do to the globals. *)
Inductive GlobalOp :=
| OpStartQuery
| OpEndQuery
| OpSetConcurrentExecMax (val : Z)
| OpConstructor (config : AthenaClientConfig).

Definition apply (g : Globals) (o : GlobalOp) : Globals :=
  match o with
  | OpStartQuery => startQuery g
  | OpEndQuery => endQuery g
  | OpSetConcurrentExecMax val => setConcurrentExecMax val g
  | OpConstructor config => fst (constructor config g)
  end.

Definition applyAll (ops : list GlobalOp) (g : Globals) : Globals :=
  fold_left apply ops g.

(** The state one execution reads and writes. *)
Record World := {
  globals : Globals;
  clock : Z;
  trace : list Action }.

Definition boot (g : Globals) : World :=
  {| globals := g; clock := 0; trace := [] |}.

(** What surrounds one execution: the other executions of the process and
    the replies of the backend.
    - [waiting]: what the rest of the process does to the globals during
      each sleep of the admission loop;
    - [running]: what it does between this execution's [startQuery] and
      its [endQuery] (the execution does not read the globals in between,
      so one batch stands for all its suspension points);
    - [submit], [cancel], [fetch]: the replies to the calls of
      [startQuery], [stopQuery] and [getQueryResults];
    - [polls]: for each [checkQuery], the replies to its calls. *)
Record Env := {
  waiting : list (list GlobalOp);
  running : list GlobalOp;
  submit : list (Scripted string);
  polls : list (list (Scripted QueryExecution));
  cancel : list (Scripted unit);
  fetch : list (Scripted ResultPage) }.

Definition log (a : Action) (w : World) : World :=
  {| globals := globals w; clock := clock w; trace := trace w ++ [a] |}.

Definition onGlobals (f : Globals -> Globals) (w : World) : World :=
  {| globals := f (globals w); clock := clock w; trace := trace w |}.

(** Modelled from the spec: [util.sleep] (util.ts is not among the
    sources), the non-blocking wait between admission checks and between
    status checks: the caller resumes [ms] milliseconds later. *)
Definition sleep (ms : Z) (w : World) : World :=
  {| globals := globals w;
     clock := clock w + timerDelay ms;
     trace := trace w ++ [Sleep ms] |}.

(** [while (!this.canStartQuery()) await util.sleep(...)]. *)
Fixpoint admission (config : AthenaClientConfig)
         (others : list (list GlobalOp)) (w : World) : option World :=
  if canStartQuery (globals w) then Some w
  else match others with
       | [] => None
       | ops :: later =>
           admission config later
             (onGlobals (applyAll ops)
                (sleep (JS.or (execRightCheckInterval config)
                              defaultExecRightCheckInterval) w))
       end.

(** *** The body of an [async] function: state, exceptions, suspension *)

Inductive Completion (A : Type) :=
| Normal (value : A)
| Throw (err : Error).
Arguments Normal {A} value.
Arguments Throw {A} err.

Definition M (A : Type) : Type := World -> option (Completion A * World).

Definition ret {A} (a : A) : M A := fun w => Some (Normal a, w).

Definition throw {A} (err : Error) : M A := fun w => Some (Throw err, w).

Definition bind {A B} (m : M A) (k : A -> M B) : M B :=
  fun w => match m w with
           | None => None
           | Some (Normal a, w') => k a w'
           | Some (Throw err, w') => Some (Throw err, w')
           end.

Notation "x <- m ;; k" := (bind m (fun x => k))
  (at level 61, m at next level, right associativity).
Notation "m ;; k" := (bind m (fun _ => k))
  (at level 61, right associativity).

Definition step (f : World -> World) : M unit := fun w => Some (Normal tt, f w).

Definition now : M Z := fun w => Some (Normal (clock w), w).

(** [await p]: the run of [p] is appended to the trace, its duration is
    added to the clock, a rejection is thrown. *)
Definition resume {A} (run : Run A) (w : World) : World :=
  {| globals := globals w;
     clock := clock w + elapsed run;
     trace := trace w ++ actions run |}.

Definition await {A} (p : option (Run A)) : M A :=
  fun w => match p with
           | None => None
           | Some run =>
               match settled run with
               | Resolved value => Some (Normal value, resume run w)
               | Rejected err => Some (Throw err, resume run w)
               end
           end.

(** [if ((config.queryTimeout || defaultQueryTimeout) !== 0)
       setTimeout(() => { isTimeout = true }, ...)]:
    the time at which the timer fires, if one is set at [started]. *)
Definition timer (config : AthenaClientConfig) (started : Z) : option Z :=
  let timeout := JS.or (queryTimeout config) defaultQueryTimeout in
  if timeout =? 0 then None else Some (started + timerDelay timeout).

(** The flag [isTimeout]: set by the timer once the deadline has passed. *)
Definition isTimeout (deadline : option Z) (clock : Z) : bool :=
  match deadline with
  | Some d => d <=? clock
  | None => false
  end.

(** [while (!isTimeout && !(await this.request.checkQuery(...)))
       await util.sleep(...)]. *)
Fixpoint pollLoop (config : AthenaClientConfig) (queryId : string)
         (deadline : option Z) (athena : list (list (Scripted QueryExecution)))
  : M unit :=
  fun w =>
    if isTimeout deadline (clock w) then Some (Normal tt, w)
    else match athena with
         | [] => None
         | replies :: later =>
             (isSucceed <- await (checkQuery replies queryId config) ;;
              if isSucceed : bool then ret tt
              else step (sleep (JS.or (pollingInterval config)
                                      defaultPollingInterval)) ;;
                   pollLoop config queryId deadline later) w
         end.

(** The [try] block of [_execute]. *)
Definition tryBlock (env : Env) (query : string) (maxResult : Z)
           (nextToken : option string) (config : AthenaClientConfig)
  : M unit :=
  step (log Acquire) ;; step (onGlobals startQuery) ;;
  step (onGlobals (applyAll (running env))) ;;
  queryId <- await (Request.startQuery (submit env) query config) ;;
  started <- now ;;
  let deadline := timer config started in
  pollLoop config queryId deadline (polls env) ;;
  checked <- now ;;
  if isTimeout deadline checked then
    await (Request.stopQuery (cancel env) queryId config) ;;
    throw (new_Error "query timeout")
  else
    resultSet <- await (Request.getQueryResults (fetch env) queryId
                                                maxResult nextToken) ;;
    step (log (Emit (EvQueryEnd resultSet))) ;;
    step (log Release) ;; step (onGlobals endQuery).

Definition _execute (env : Env) (query : string) (maxResult : Z)
           (nextToken : option string) (config : AthenaClientConfig)
           (w : World) : option World :=
  match admission config (waiting env) w with
  | None => None
  | Some entered =>
      match tryBlock env query maxResult nextToken config entered with
      | None => None
      | Some (Normal _, w') => Some (log (Emit EvEnd) w')
      | Some (Throw err, w') =>
          Some (log (Emit (EvError err)) (onGlobals endQuery (log Release w')))
      end
  end.

(** *** The two views of [execute] *)

Inductive Promise (A : Type) :=
| Pending
| Fulfilled (value : A)
| Broken (err : Error).
Arguments Pending {A}.
Arguments Fulfilled {A} value.
Arguments Broken {A} err.

(** The closure of [toPromise]: its two local variables and its promise,
    resolved with the value of [resultSet] ([None] for [undefined]). *)
Record Listener := {
  records : list (list string);
  resultSet : option ResultPage;
  promise : Promise (option ResultPage) }.

Definition attached : Listener :=
  {| records := []; resultSet := None; promise := Pending |}.

Definition resolve {A} (value : A) (p : Promise A) : Promise A :=
  match p with Pending => Fulfilled value | _ => p end.

Definition reject {A} (err : Error) (p : Promise A) : Promise A :=
  match p with Pending => Broken err | _ => p end.

(** The four listeners of [toPromise]. *)
Definition on (l : Listener) (ev : StreamEvent) : Listener :=
  match ev with
  | EvData record =>
      {| records := records l ++ [record];
         resultSet := resultSet l; promise := promise l |}
  | EvQueryEnd q =>
      {| records := records l; resultSet := Some q; promise := promise l |}
  | EvEnd =>
      {| records := records l; resultSet := resultSet l;
         promise := resolve (resultSet l) (promise l) |}
  | EvError err =>
      {| records := records l; resultSet := resultSet l;
         promise := reject err (promise l) |}
  end.

(** [toPromise], attached before the stream emits. *)
Definition toPromise (events : list StreamEvent) : Listener :=
  fold_left on events attached.

Definition toStream (w : World) : list StreamEvent := emitted (trace w).

(** [execute]: one run of [_execute] on a fresh transform. *)
Definition execute (env : Env) (query : string) (maxResult : Z)
           (nextToken : option string) (config : AthenaClientConfig)
           (g : Globals) : option World :=
  _execute env query maxResult nextToken config (boot g).

End Client.


(** ** Vocabulary of the properties *)

Import Request Client.

(** A scripted reply that the retry loops classify as transient. *)
Definition transient {A} (r : Scripted A) : bool :=
  match reply r with
  | Failure err => isRetryException err
  | Success _ => false
  end.

(** How a reply that is not retried settles the promise. *)
Definition outcome {A} (r : Scripted A) : Settled A :=
  match reply r with
  | Failure err => Rejected err
  | Success data => Resolved data
  end.


(** The effective retry parameters of a configuration. *)
Definition retryCap (config : AthenaRequestConfig) : Z :=
  JS.or (retryCountMax config) defaultRetryCountMax.

Definition baseWait (config : AthenaRequestConfig) : Z :=
  JS.or (baseRetryWait config) defaultBaseRetryWait.

Definition maxWait (config : AthenaRequestConfig) : Z :=
  JS.or (retryWaitMax config) defaultRetryWaitMax.

(** The number of retries of a run and the waits it scheduled. *)
Definition waits {A} (run : Run A) : list Number := backoffs (actions run).

Definition retries {A} (run : Run A) : nat := List.length (waits run).

(** The run that retries each reply of [errs], from [retryCount] on,
    and then goes on as [rest]. *)
Fixpoint retried {A} (op : Operation) (wait : nat -> Number) (retryCount : nat)
         (errs : list (Scripted A)) (rest : Run A) : Run A :=
  match errs with
  | [] => rest
  | r :: errs' =>
      again op r (wait retryCount) (retried op wait (S retryCount) errs' rest)
  end.

(** Actions of the backend wrappers: no slot, no stream event. *)
Definition quiet (a : Action) : bool :=
  match a with
  | Call _ | SetTimeout _ | Sleep _ => true
  | Acquire | Release | Emit _ => false
  end.

(** Every ceiling an operation installs is non-negative. *)
Definition ceilingOk (o : GlobalOp) : bool :=
  match o with
  | OpSetConcurrentExecMax val => 0 <=? val
  | OpConstructor config =>
      match Config.concurrentExecMax config with
      | Some val => 0 <=? val
      | None => true
      end
  | OpStartQuery | OpEndQuery => true
  end.

(** The promise of [result] is fulfilled with [data] (rejected with
    [err]) after exactly [k] retries, that is [k + 1] calls of [op]. *)
Definition SucceedsAfter {A} (op : Operation) (result : option (Run A))
           (data : A) (k : nat) : Prop :=
  exists run, result = Some run /\ settled run = Resolved data
              /\ retries run = k /\ calls op (actions run) = S k.

Definition FailsAfter {A} (op : Operation) (result : option (Run A))
           (err : Error) (k : nat) : Prop :=
  exists run, result = Some run /\ settled run = Rejected err
              /\ retries run = k /\ calls op (actions run) = S k.

(** The retry policy of a method that calls [op] on the script it is
    given: up to [retryCap] transient errors are retried, the error that
    comes after [retryCap] retries is propagated. *)
Definition RetriesUpToCap {A} (op : Operation)
           (method : list (Scripted A) -> option (Run A))
           (config : AthenaRequestConfig) : Prop :=
  (forall (errs : list (Scripted A)) (last : Scripted A) (data : A)
          (rest : list (Scripted A)),
      forallb transient errs = true ->
      reply last = Success data ->
      Z.of_nat (List.length errs) <= retryCap config ->
      SucceedsAfter op (method (errs ++ last :: rest)) data (List.length errs))
  /\
  (forall (errs : list (Scripted A)) (last : Scripted A) (err : Error)
          (rest : list (Scripted A)),
      forallb transient errs = true ->
      reply last = Failure err ->
      List.length errs = Z.to_nat (retryCap config) ->
      FailsAfter op (method (errs ++ last :: rest)) err (List.length errs)).


(** *** Sample data *)

Definition requestConfig (count : option Z) : AthenaRequestConfig :=
  {| bucketUri := "s3://bucket/out";
     baseRetryWait := None; retryWaitMax := None; retryCountMax := count;
     database := None; encryptionOption := None; encryptionKmsKey := None;
     workGroup := None |}.

Definition clientConfig (timeout : option Z) : AthenaClientConfig :=
  {| request := requestConfig None;
     pollingInterval := None; queryTimeout := timeout;
     Config.concurrentExecMax := None; execRightCheckInterval := None;
     skipFetchResult := None |}.

(** A configuration whose numeric options are all an explicit 0. *)
Definition zeroConfig : AthenaClientConfig :=
  {| request := {| bucketUri := "s3://bucket/out";
                   baseRetryWait := Some 0; retryWaitMax := Some 0;
                   retryCountMax := Some 0;
                   database := None; encryptionOption := None;
                   encryptionKmsKey := None; workGroup := None |};
     pollingInterval := Some 0; queryTimeout := Some 0;
     Config.concurrentExecMax := Some 0; execRightCheckInterval := Some 0;
     skipFetchResult := None |}.


Definition ok {A} (data : A) : Scripted A :=
  {| latency := 5; reply := Success data |}.

Definition throttling : Error :=
  {| code := Some "ThrottlingException"; message := "Rate exceeded" |}.

Definition accessDenied : Error :=
  {| code := Some "AccessDeniedException"; message := "not authorized" |}.

Definition ko {A} (err : Error) : Scripted A :=
  {| latency := 5; reply := Failure err |}.

Definition status (state : string) : QueryExecution :=
  {| State := state; StateChangeReason := None |}.

Definition page3 : ResultPage :=
  {| Rows := [["_col0"]; ["1"]; ["2"]; ["3"]]; NextToken := None |}.

(** "SELECT 1": SUCCEEDED after two polls, one page. *)
Definition envSelect1 : Env :=
  {| waiting := []; running := [];
     submit := [ok "q-1"];
     polls := [[ok (status "RUNNING")]; [ok (status "RUNNING")];
               [ok (status "SUCCEEDED")]];
     cancel := [];
     fetch := [ok page3] |}.

(** The backend throttles the fetch of the page once. *)
Definition envThrottledFetch : Env :=
  {| waiting := []; running := [];
     submit := [ok "q-1"];
     polls := [[ok (status "SUCCEEDED")]];
     cancel := [];
     fetch := [ko throttling; ok page3] |}.

(** The query never leaves RUNNING; the cancel request is answered by
    [stop]. *)
Definition envStuck (stop : Scripted unit) : Env :=
  {| waiting := []; running := [];
     submit := [ok "q-1"];
     polls := [[ok (status "RUNNING")]; [ok (status "RUNNING")];
               [ok (status "RUNNING")]];
     cancel := [stop];
     fetch := [ok page3] |}.

(** The backend reports FAILED at the first status check. *)
Definition envFailed : Env :=
  {| waiting := []; running := [];
     submit := [ok "q-1"];
     polls := [[ok {| State := "FAILED";
                      StateChangeReason := Some "SYNTAX_ERROR: line 1" |}]];
     cancel := [];
     fetch := [] |}.


(** ** request.ts: the parameters of the calls *)

Record EncryptionConfigurationParam := {
  EncryptionOption : string;
  KmsKey : option string }.

Record ResultConfigurationParam := {
  OutputLocation : string;
  EncryptionConfiguration : option EncryptionConfigurationParam }.

Record QueryExecutionContextParam := { Database : string }.

Record AthenaRequestParams := {
  QueryString : string;
  ResultConfiguration : ResultConfigurationParam;
  QueryExecutionContext : QueryExecutionContextParam;
  WorkGroup : string }.

(** [v && {...}] under a spread: the object is added for a string that is
    neither [undefined] nor ['']. *)
Definition whenTruthy (v : option string) : option string :=
  match v with
  | Some (String c s) => Some (String c s)
  | Some EmptyString | None => None
  end.

(** The constant [params] of [startQuery]. *)
Definition startQueryParams (query : string) (config : AthenaRequestConfig)
  : AthenaRequestParams :=
  {| QueryString := query;
     ResultConfiguration :=
       {| OutputLocation := bucketUri config;
          EncryptionConfiguration :=
            match whenTruthy (encryptionOption config) with
            | Some enc =>
                Some {| EncryptionOption := enc;
                        KmsKey := whenTruthy (encryptionKmsKey config) |}
            | None => None
            end |};
     QueryExecutionContext :=
       {| Database := JS.or_str (database config) "default" |};
     WorkGroup := JS.or_str (workGroup config) "primary" |}.

(** [s] without the prefix [p], when it has it. *)
Fixpoint stripPrefix (p s : string) : option string :=
  match p with
  | EmptyString => Some s
  | String a p' =>
      match s with
      | EmptyString => None
      | String b s' => if Ascii.eqb a b then stripPrefix p' s' else None
      end
  end.

(** [s.replace(pattern, replacement)] for a string pattern: the first
    occurrence is replaced. *)
Fixpoint replace (pattern replacement s : string) : string :=
  match stripPrefix pattern s with
  | Some rest => String.append replacement rest
  | None =>
      match s with
      | EmptyString => EmptyString
      | String c s' => String c (replace pattern replacement s')
      end
  end.

(** [s.split(sep)] for a separator of one character. *)
Fixpoint split (sep : Ascii.ascii) (s : string) : list string :=
  match s with
  | EmptyString => [EmptyString]
  | String c s' =>
      if Ascii.eqb c sep then EmptyString :: split sep s'
      else match split sep s' with
           | first :: others => String c first :: others
           | [] => [String c EmptyString]
           end
  end.

(** [arr.join(sep)]. *)
Fixpoint join (sep : string) (arr : list string) : string :=
  match arr with
  | [] => EmptyString
  | [x] => x
  | x :: others => String.append x (String.append sep (join sep others))
  end.

(** The request that [getResultsStream] hands to [s3.getObject]. *)
Record GetObjectRequest := { Bucket : string; Key : string }.

Definition getResultsStream (s3Uri : string) : GetObjectRequest :=
  let arr := split "/"%char (replace "s3://" "" s3Uri) in
  (* [arr.shift()] takes the head and leaves the tail in [arr] *)
  {| Bucket := JS.or_str (hd_error arr) ""; Key := join "/" (tl arr) |}.

(** ** Vocabulary of the further properties *)

Definition hasSlash (s : string) : bool :=
  existsb (fun c => Ascii.eqb c "/"%char) (list_ascii_of_string s).

(** The events that settle the promise of [toPromise]. *)
Definition terminal (ev : StreamEvent) : bool :=
  match ev with
  | EvEnd | EvError _ => true
  | EvData _ | EvQueryEnd _ => false
  end.

(** The value of the last [query_end] among [events], if any. *)
Definition announced (events : list StreamEvent) : option ResultPage :=
  fold_left (fun acc ev => match ev with EvQueryEnd q => Some q | _ => acc end)
            events None.

(** The operations of other executions: acquisitions and releases. *)
Definition slotOnly (o : GlobalOp) : bool :=
  match o with
  | OpStartQuery | OpEndQuery => true
  | OpSetConcurrentExecMax _ | OpConstructor _ => false
  end.

(** Whatever the script, a method makes one call more than it retries
    and never retries more often than the cap allows. *)
Definition NeverExceedsCap {A} (op : Operation)
           (method : list (Scripted A) -> option (Run A))
           (config : AthenaRequestConfig) : Prop :=
  forall (athena : list (Scripted A)) (run : Run A),
    method athena = Some run ->
    Z.of_nat (retries run) <= Z.max 0 (retryCap config)
    /\ calls op (actions run) = S (retries run).

(** A reply that is an error the loops do not classify as transient
    rejects the promise after one call and no wait. *)
Definition RejectsPermanent {A} (op : Operation)
           (method : list (Scripted A) -> option (Run A)) : Prop :=
  forall (r : Scripted A) (rest : list (Scripted A)) (err : Error),
    reply r = Failure err ->
    isRetryException err = false ->
    method (r :: rest)
    = Some {| settled := Rejected err;
              actions := [Call op];
              elapsed := Z.of_nat (latency r) |}.

Definition kmsConfig (enc key : option string) (ceiling : option Z)
  : AthenaClientConfig :=
  {| request := {| bucketUri := "s3://bucket/out";
                   baseRetryWait := None; retryWaitMax := None;
                   retryCountMax := None; database := None;
                   encryptionOption := enc; encryptionKmsKey := key;
                   workGroup := None |};
     pollingInterval := None; queryTimeout := None;
     Config.concurrentExecMax := ceiling; execRightCheckInterval := None;
     skipFetchResult := None |}.

(** The deadline of 8 ms passes while the first status check, which takes
    20 ms, reports SUCCEEDED. *)
Definition envSlowSuccess : Env :=
  {| waiting := []; running := [];
     submit := [ok "q-1"];
     polls := [[{| latency := 20; reply := Success (status "SUCCEEDED") |}]];
     cancel := [ok tt];
     fetch := [ok page3] |}.

(** ** The retry loop *)

Section RetryLoopFacts.
Context {A : Type}.
Variable op : Operation.
Variable wait : nat -> Number.
Variable config : AthenaRequestConfig.

Lemma canRetry_cap (n : nat) :
  canRetry n config = (Z.of_nat n <? retryCap config).
Proof. reflexivity. Qed.

Lemma transient_inv (r : Scripted A) :
  transient r = true ->
  exists err, reply r = Failure err /\ isRetryException err = true.
Proof.
  unfold transient. destruct (reply r) as [err|data]; intro H.
  - exists err. split; [reflexivity | exact H].
  - discriminate H.
Qed.

(** As long as the cap allows it, transient replies are consumed one by
    one and the loop goes on with the rest of the script. *)
Lemma loopFunc_retried (errs tail : list (Scripted A)) :
  forall n : nat,
    forallb transient errs = true ->
    Z.of_nat n + Z.of_nat (List.length errs) <= retryCap config ->
    loopFunc op wait config n (errs ++ tail)
    = option_map (retried op wait n errs)
                 (loopFunc op wait config (n + List.length errs) tail).
Proof.
  induction errs as [|r errs IH]; intros n Htr Hcap.
  - simpl. rewrite Nat.add_0_r.
    destruct (loopFunc op wait config n tail); reflexivity.
  - simpl in Htr. apply andb_true_iff in Htr as [Hr Htr].
    destruct (transient_inv r Hr) as [err [Hreply Hretry]].
    cbn [List.length] in Hcap.
    cbn [app loopFunc]. rewrite Hreply, Hretry, canRetry_cap.
    replace (Z.of_nat n <? retryCap config) with true
      by (symmetry; apply Z.ltb_lt; lia).
    cbn [andb]. rewrite IH by (trivial; lia).
    replace (S n + List.length errs)%nat with (n + List.length (r :: errs))%nat
      by (cbn [List.length]; lia).
    destruct (loopFunc op wait config (n + List.length (r :: errs)) tail);
      reflexivity.
Qed.

(** A reply that is not transient settles the promise at once. *)
Lemma loopFunc_settles (r : Scripted A) (rest : list (Scripted A)) (n : nat) :
  transient r = false ->
  loopFunc op wait config n (r :: rest) = Some (settle op r (outcome r)).
Proof.
  unfold transient, outcome. cbn [loopFunc].
  destruct (reply r) as [err|data]; intro H.
  - rewrite H. reflexivity.
  - reflexivity.
Qed.

(** At the cap, a transient error settles the promise as well. *)
Lemma loopFunc_exhausted (r : Scripted A) (rest : list (Scripted A)) (n : nat) :
  retryCap config <= Z.of_nat n ->
  loopFunc op wait config n (r :: rest) = Some (settle op r (outcome r)).
Proof.
  intro Hcap. unfold outcome. cbn [loopFunc].
  destruct (reply r) as [err|data]; [|reflexivity].
  rewrite canRetry_cap.
  replace (Z.of_nat n <? retryCap config) with false
    by (symmetry; apply Z.ltb_ge; lia).
  rewrite andb_false_r. reflexivity.
Qed.

Lemma retried_settled (errs : list (Scripted A)) (rest : Run A) :
  forall n, settled (retried op wait n errs rest) = settled rest.
Proof. induction errs as [|r errs IH]; intro n; [reflexivity | apply IH]. Qed.

Lemma retried_waits (errs : list (Scripted A)) (rest : Run A) :
  forall n,
    waits (retried op wait n errs rest)
    = map wait (seq n (List.length errs)) ++ waits rest.
Proof.
  unfold waits.
  induction errs as [|r errs IH]; intro n; [reflexivity|].
  cbn [retried again actions backoffs List.length seq map app].
  destruct op; cbn [backoffs]; rewrite IH; reflexivity.
Qed.

Lemma calls_settle (r : Scripted A) (s : Settled A) :
  calls op (actions (settle op r s)) = 1%nat.
Proof. destruct op; reflexivity. Qed.

Lemma retried_calls (errs : list (Scripted A)) (rest : Run A) :
  forall n,
    calls op (actions (retried op wait n errs rest))
    = (List.length errs + calls op (actions rest))%nat.
Proof.
  unfold calls.
  induction errs as [|r errs IH]; intro n; [reflexivity|].
  cbn [retried again actions List.length].
  specialize (IH (S n)).
  destruct op; cbn [filter is_call List.length] in *; rewrite IH; reflexivity.
Qed.

Lemma waits_settle (r : Scripted A) (s : Settled A) :
  waits (settle op r s) = [].
Proof. destruct op; reflexivity. Qed.

(** [k] transient errors within the cap, then a reply that is not
    retried: the promise settles on that reply after [k] retries. *)
Lemma loopFunc_within_cap (errs : list (Scripted A)) (last : Scripted A)
      (rest : list (Scripted A)) :
  forallb transient errs = true ->
  transient last = false ->
  Z.of_nat (List.length errs) <= retryCap config ->
  exists run,
    loopFunc op wait config 0 (errs ++ last :: rest) = Some run
    /\ settled run = outcome last
    /\ waits run = map wait (seq 0 (List.length errs))
    /\ calls op (actions run) = S (List.length errs).
Proof.
  intros Htr Hlast Hcap.
  rewrite loopFunc_retried by (trivial; lia).
  rewrite loopFunc_settles by exact Hlast.
  eexists. split; [reflexivity|]. cbn [option_map].
  rewrite retried_settled, retried_waits, retried_calls, waits_settle,
    calls_settle, app_nil_r.
  repeat split. lia.
Qed.

(** More transient errors than the cap: the error that follows the last
    allowed retry is propagated. *)
Lemma loopFunc_beyond_cap (errs : list (Scripted A)) (last : Scripted A)
      (rest : list (Scripted A)) :
  forallb transient errs = true ->
  List.length errs = Z.to_nat (retryCap config) ->
  exists run,
    loopFunc op wait config 0 (errs ++ last :: rest) = Some run
    /\ settled run = outcome last
    /\ retries run = List.length errs
    /\ calls op (actions run) = S (List.length errs).
Proof.
  intros Htr Hlen.
  destruct (Z_lt_le_dec (retryCap config) 0) as [Hneg|Hpos].
  - assert (errs = []) as ->
        by (apply length_zero_iff_nil; rewrite Hlen; lia).
    cbn [app]. rewrite loopFunc_exhausted by (cbn; lia).
    eexists. split; [reflexivity|]. unfold retries.
    rewrite waits_settle, calls_settle. repeat split.
  - rewrite loopFunc_retried by (trivial; lia).
    rewrite loopFunc_exhausted by lia.
    eexists. split; [reflexivity|]. cbn [option_map]. unfold retries.
  rewrite retried_settled, retried_waits, retried_calls, waits_settle,
      calls_settle, app_nil_r, length_map, length_seq.
    repeat split. lia.
Qed.

End RetryLoopFacts.

Lemma loopFunc_policy {A} (op : Operation) (wait : nat -> Number)
      (config : AthenaRequestConfig) :
  @RetriesUpToCap A op (loopFunc op wait config 0) config.
Proof.
  split.
  - intros errs last data rest Htr Hlast Hcap.
    assert (transient last = false) as Hnt
        by (unfold transient; rewrite Hlast; reflexivity).
    destruct (loopFunc_within_cap op wait config errs last rest Htr Hnt Hcap)
      as [run [Hrun [Hset [Hw Hc]]]].
    exists run. unfold retries. rewrite Hw, length_map, length_seq.
    unfold outcome in Hset. rewrite Hlast in Hset. auto.
  - intros errs last err rest Htr Hlast Hlen.
    destruct (loopFunc_beyond_cap op wait config errs last rest Htr Hlen)
      as [run [Hrun [Hset [Hr Hc]]]].
    exists run. unfold outcome in Hset. rewrite Hlast in Hset. auto.
Qed.



(** [getQueryResults] settles on the first reply, whatever it is. *)
Lemma getQueryResults_first (r : Scripted ResultPage)
      (rest : list (Scripted ResultPage)) (id : string) (n : Z)
      (token : option string) :
  Request.getQueryResults (r :: rest) id n token
  = Some (settle GetQueryResults r (outcome r)).
Proof.
  unfold Request.getQueryResults, outcome. destruct (reply r); reflexivity.
Qed.

(** ** The claims about the retry policy *)

(** C7 (amended).  For [startQuery], [stopQuery] and [getQueryExecution]:
    [k] transient errors followed by a success, with [k] at most the
    effective [retryCountMax] (the configured value, 10 when it is unset
    or 0), give a success after exactly [k] retries; once
    [retryCountMax] retries have been made, the next error is propagated
    and nothing more is called. *)
Theorem retry_cap_counts_retries
        (config : AthenaRequestConfig) (query queryId : string) :
  RetriesUpToCap StartQueryExecution
                 (fun athena => Request.startQuery athena query config) config
  /\ RetriesUpToCap StopQueryExecution
                    (fun athena => Request.stopQuery athena queryId config) config
  /\ RetriesUpToCap GetQueryExecution
                    (fun athena => Request.getQueryExecution athena queryId config)
                    config.
Proof.
  repeat split; apply loopFunc_policy.
Qed.

Lemma retry_cap_counts_retries_witness :
  SucceedsAfter StartQueryExecution
    (Request.startQuery ([ko throttling] ++ ok "q-1" :: []) "SELECT 1"
                        (requestConfig (Some 1)))
    "q-1" 1
  /\ FailsAfter StartQueryExecution
       (Request.startQuery ([ko throttling] ++ ko throttling :: [ok "q-1"])
                           "SELECT 1" (requestConfig (Some 1)))
       throttling 1.
Proof.
  destruct (retry_cap_counts_retries (requestConfig (Some 1)) "SELECT 1" "q-1")
    as [[Hin Hout] _].
  split.
  - apply (Hin [ko throttling] (ok "q-1") "q-1" []).
    + reflexivity.
    + reflexivity.
    + vm_compute. discriminate.
  - apply (Hout [ko throttling] (ko throttling) throttling [ok "q-1"]).
    + reflexivity.
    + reflexivity.
    + reflexivity.
Defined.

(** C7, as stated, fails at the boundary: with [retryCountMax = 1], one
    transient error (a sequence of at least [retryCountMax] of them)
    followed by a success is a success, not a permanent failure. *)
Lemma retry_cap_boundary_counterexample :
  retryCap (requestConfig (Some 1)) = 1
  /\ forallb transient [@ko string throttling] = true
  /\ Z.of_nat (List.length [@ko string throttling])
     >= retryCap (requestConfig (Some 1))
  /\ option_map settled
       (Request.startQuery ([ko throttling] ++ [ok "q-1"]) "SELECT 1"
                           (requestConfig (Some 1)))
     = Some (Resolved "q-1").
Proof.
  repeat split. vm_compute. discriminate.
Qed.










(** C3 at the failing input: the backend throttles the fetch of the
    result page once.  [getQueryResults] rejects with the throttling
    error after one call and no wait, and the execution ends with that
    error, although the error is transient and a retry is allowed; the
    same reply is retried by [startQuery], [stopQuery] and
    [getQueryExecution]. *)
Theorem fetch_is_not_retried :
  (isRetryException throttling = true
   /\ canRetry 0 (requestConfig None) = true)
  /\ Request.getQueryResults [ko throttling; ok page3] "q-1" 10 None
     = Some {| settled := Rejected throttling;
               actions := [Call GetQueryResults];
               elapsed := 5 |}
  /\ option_map toStream
       (execute envThrottledFetch "SELECT 1" 10 None (clientConfig None) initial)
     = Some [EvError throttling]
  /\ SucceedsAfter StartQueryExecution
       (Request.startQuery [ko throttling; ok "q-1"] "SELECT 1"
                           (requestConfig None)) "q-1" 1
  /\ SucceedsAfter StopQueryExecution
       (Request.stopQuery [ko throttling; ok tt] "q-1" (requestConfig None))
       tt 1
  /\ SucceedsAfter GetQueryExecution
       (Request.getQueryExecution [ko throttling; ok (status "SUCCEEDED")]
                                  "q-1" (requestConfig None))
       (status "SUCCEEDED") 1.
Proof.
  split; [split; reflexivity|].
  split; [reflexivity|].
  split; [reflexivity|].
  repeat split; eexists; (split; [reflexivity|]); repeat split.
Qed.

(** ** Traces *)

Lemma acquisitions_app (l1 l2 : list Action) :
  acquisitions (l1 ++ l2) = (acquisitions l1 + acquisitions l2)%nat.
Proof. unfold acquisitions. rewrite filter_app, length_app. reflexivity. Qed.

Lemma releases_app (l1 l2 : list Action) :
  releases (l1 ++ l2) = (releases l1 + releases l2)%nat.
Proof. unfold releases. rewrite filter_app, length_app. reflexivity. Qed.

Lemma emitted_app (l1 l2 : list Action) :
  emitted (l1 ++ l2) = emitted l1 ++ emitted l2.
Proof.
  induction l1 as [|a l1 IH]; [reflexivity|].
  destruct a; cbn [app emitted]; rewrite IH; reflexivity.
Qed.

Lemma quiet_silent (l : list Action) :
  forallb quiet l = true ->
  acquisitions l = 0%nat /\ releases l = 0%nat /\ emitted l = [].
Proof.
  induction l as [|a l IH]; [repeat split|].
  cbn [forallb]. intro H. apply andb_true_iff in H as [Ha Hl].
  destruct (IH Hl) as [H1 [H2 H3]].
  destruct a; try discriminate Ha; repeat split; assumption.
Qed.

Lemma loopFunc_quiet {A} (op : Operation) (wait : nat -> Number)
      (config : AthenaRequestConfig) (athena : list (Scripted A)) :
  forall n run,
    loopFunc op wait config n athena = Some run ->
    forallb quiet (actions run) = true
    /\ (1 <= calls op (actions run))%nat.
Proof.
  induction athena as [|r later IH]; intros n run; [discriminate|].
  cbn [loopFunc].
  destruct (reply r) as [err|data].
  - destruct (isRetryException err && canRetry n config).
    + destruct (loopFunc op wait config (S n) later) as [rest|] eqn:Hrest;
        [|discriminate].
      cbn [option_map]. intro H. injection H as <-.
      destruct (IH _ _ Hrest) as [Hq Hc].
      split; [exact Hq|].
      unfold calls in *. destruct op; cbn; lia.
    + intro H. injection H as <-. split; [reflexivity|].
      rewrite calls_settle. lia.
  - intro H. injection H as <-. split; [reflexivity|].
    rewrite calls_settle. lia.
Qed.

Lemma checkQuery_quiet (athena : list (Scripted QueryExecution))
      (queryId : string) (config : AthenaRequestConfig) (run : Run bool) :
  Request.checkQuery athena queryId config = Some run ->
  forallb quiet (actions run) = true.
Proof.
  unfold Request.checkQuery.
  destruct (Request.getQueryExecution athena queryId config) as [r|] eqn:Hr;
    [|discriminate].
  intro H. injection H as <-. cbn [actions].
  apply (loopFunc_quiet _ _ _ _ _ _ Hr).
Qed.

Lemma getQueryResults_quiet (athena : list (Scripted ResultPage))
      (id : string) (n : Z) (token : option string) (run : Run ResultPage) :
  Request.getQueryResults athena id n token = Some run ->
  forallb quiet (actions run) = true.
Proof.
  destruct athena as [|r rest]; [discriminate|].
  rewrite getQueryResults_first. intro H. injection H as <-. reflexivity.
Qed.

Lemma calls_app (op : Operation) (l1 l2 : list Action) :
  calls op (l1 ++ l2) = (calls op l1 + calls op l2)%nat.
Proof. unfold calls. rewrite filter_app, length_app. reflexivity. Qed.

(** A retry loop calls its own operation only. *)
Lemma loopFunc_calls_own {A} (op other : Operation) (wait : nat -> Number)
      (config : AthenaRequestConfig) (athena : list (Scripted A)) :
  is_call other (Call op) = false ->
  forall n run,
    loopFunc op wait config n athena = Some run ->
    calls other (actions run) = 0%nat.
Proof.
  intro Hne.
  induction athena as [|r later IH]; intros n run; [discriminate|].
  cbn [loopFunc].
  destruct (reply r) as [err|data].
  - destruct (isRetryException err && canRetry n config).
    + destruct (loopFunc op wait config (S n) later) as [rest|] eqn:Hrest;
        [|discriminate].
      cbn [option_map]. intro H. injection H as <-.
      specialize (IH _ _ Hrest). unfold calls in *.
      cbn [again actions filter]. rewrite Hne. cbn [is_call]. exact IH.
    + intro H. injection H as <-. unfold calls.
      cbn [settle actions filter]. rewrite Hne. reflexivity.
  - intro H. injection H as <-. unfold calls.
    cbn [settle actions filter]. rewrite Hne. reflexivity.
Qed.

(** ** The polling loop *)

Lemma pollLoop_nil (config : AthenaClientConfig) (queryId : string)
      (deadline : option Z) (w : World) :
  pollLoop config queryId deadline [] w
  = if isTimeout deadline (clock w) then Some (Normal tt, w) else None.
Proof. reflexivity. Qed.

Lemma pollLoop_cons (config : AthenaClientConfig) (queryId : string)
      (deadline : option Z) (replies : list (Scripted QueryExecution))
      (later : list (list (Scripted QueryExecution))) (w : World) :
  pollLoop config queryId deadline (replies :: later) w
  = if isTimeout deadline (clock w) then Some (Normal tt, w)
    else match Request.checkQuery replies queryId config with
         | None => None
         | Some run =>
             match settled run with
             | Resolved true => Some (Normal tt, resume run w)
             | Resolved false =>
                 pollLoop config queryId deadline later
                   (sleep (JS.or (pollingInterval config) defaultPollingInterval)
                          (resume run w))
             | Rejected err => Some (Throw err, resume run w)
             end
         end.
Proof.
  cbn [pollLoop]. destruct (isTimeout deadline (clock w)); [reflexivity|].
  unfold bind, await.
  destruct (Request.checkQuery replies queryId config) as [run|]; [|reflexivity].
  destruct (settled run) as [[|]|err]; reflexivity.
Qed.

Lemma pollLoop_quiet (config : AthenaClientConfig) (queryId : string)
      (deadline : option Z) (athena : list (list (Scripted QueryExecution))) :
  forall w c w',
    pollLoop config queryId deadline athena w = Some (c, w') ->
    exists l, trace w' = trace w ++ l /\ forallb quiet l = true.
Proof.
  induction athena as [|replies later IH]; intros w c w'.
  - rewrite pollLoop_nil. destruct (isTimeout deadline (clock w)); [|discriminate].
    intro H. injection H as _ <-. exists []. rewrite app_nil_r. auto.
  - rewrite pollLoop_cons. destruct (isTimeout deadline (clock w)).
    + intro H. injection H as _ <-. exists []. rewrite app_nil_r. auto.
    + destruct (Request.checkQuery replies queryId config) as [run|] eqn:Hrun;
        [|discriminate].
      pose proof (checkQuery_quiet _ _ _ _ Hrun) as Hq.
      destruct (settled run) as [[|]|err].
      * intro H. injection H as _ <-. exists (actions run). auto.
      * intro H. destruct (IH _ _ _ H) as [l [Hl Hql]].
        exists (actions run ++ Sleep (JS.or (pollingInterval config)
                                            defaultPollingInterval) :: l).
        split.
        -- rewrite Hl. cbn [sleep resume trace].
           rewrite <- !app_assoc. reflexivity.
        -- rewrite forallb_app, Hq. cbn [forallb quiet andb]. exact Hql.
      * intro H. injection H as _ <-. exists (actions run). auto.
Qed.

Lemma admission_quiet (config : AthenaClientConfig)
      (others : list (list GlobalOp)) :
  forall w w',
    admission config others w = Some w' ->
    canStartQuery (globals w') = true
    /\ exists l, trace w' = trace w ++ l /\ forallb quiet l = true.
Proof.
  induction others as [|ops later IH]; intros w w'; cbn [admission];
    destruct (canStartQuery (globals w)) eqn:Hcan.
  - intro H. injection H as <-. split; [exact Hcan|].
    exists []. rewrite app_nil_r. auto.
  - discriminate.
  - intro H. injection H as <-. split; [exact Hcan|].
    exists []. rewrite app_nil_r. auto.
  - intro H. destruct (IH _ _ H) as [Hc [l [Hl Hq]]]. split; [exact Hc|].
    exists (Sleep (JS.or (execRightCheckInterval config)
                         defaultExecRightCheckInterval) :: l).
    split; [|exact Hq].
    rewrite Hl. cbn [onGlobals sleep trace]. rewrite <- app_assoc. reflexivity.
Qed.

(** ** One execution *)

(** The [try] block, stage by stage. *)
Lemma tryBlock_stages (env : Env) (query : string) (maxResult : Z)
      (nextToken : option string) (config : AthenaClientConfig) (w : World) :
  tryBlock env query maxResult nextToken config w
  = let w0 := onGlobals (applyAll (running env))
                        (onGlobals startQuery (log Acquire w)) in
    match Request.startQuery (submit env) query config with
    | None => None
    | Some sub =>
        match settled sub with
        | Rejected err => Some (Throw err, resume sub w0)
        | Resolved queryId =>
            let w1 := resume sub w0 in
            let deadline := timer config (clock w1) in
            match pollLoop config queryId deadline (polls env) w1 with
            | None => None
            | Some (Throw err, w2) => Some (Throw err, w2)
            | Some (Normal _, w2) =>
                if isTimeout deadline (clock w2) then
                  match Request.stopQuery (cancel env) queryId config with
                  | None => None
                  | Some stop =>
                      Some (Throw match settled stop with
                                  | Resolved _ => new_Error "query timeout"
                                  | Rejected err => err
                                  end,
                            resume stop w2)
                  end
                else
                  match Request.getQueryResults (fetch env) queryId
                                                maxResult nextToken with
                  | None => None
                  | Some got =>
                      match settled got with
                      | Resolved resultSet =>
                          Some (Normal tt,
                                onGlobals endQuery
                                  (log Release
                                     (log (Emit (EvQueryEnd resultSet))
                                          (resume got w2))))
                      | Rejected err => Some (Throw err, resume got w2)
                      end
                  end
            end
        end
    end.
Proof.
  unfold tryBlock, bind, step, now, await, throw. cbn zeta.
  destruct (Request.startQuery (submit env) query config) as [sub|];
    [|reflexivity].
  destruct (settled sub) as [queryId|err]; [|reflexivity].
  destruct (pollLoop config queryId _ (polls env) _) as [[[[]|err] w2]|];
    [|reflexivity|reflexivity].
  destruct (isTimeout _ (clock w2)).
  - destruct (Request.stopQuery (cancel env) queryId config) as [stop|];
      [|reflexivity].
    destruct (settled stop); reflexivity.
  - destruct (Request.getQueryResults (fetch env) queryId maxResult nextToken)
      as [got|]; [|reflexivity].
    destruct (settled got); reflexivity.
Qed.

(** What the [try] block adds to the trace: the acquisition, then
    backend actions only, and at the end of the normal path the
    [query_end] event and the release. *)
Lemma tryBlock_trace (env : Env) (query : string) (maxResult : Z)
      (nextToken : option string) (config : AthenaClientConfig)
      (w w' : World) (c : Completion unit) :
  tryBlock env query maxResult nextToken config w = Some (c, w') ->
  exists l,
    forallb quiet l = true
    /\ match c with
       | Normal _ =>
           exists q, trace w'
                     = trace w ++ Acquire :: l ++ [Emit (EvQueryEnd q); Release]
       | Throw _ => trace w' = trace w ++ Acquire :: l
       end.
Proof.
  rewrite tryBlock_stages. cbn zeta.
  destruct (Request.startQuery (submit env) query config) as [sub|] eqn:Hsub;
    [|discriminate].
  destruct (loopFunc_quiet _ _ _ _ _ _ Hsub) as [Hqsub _].
  destruct (settled sub) as [queryId|err].
  2:{ intro H. injection H as <- <-. exists (actions sub).
      split; [exact Hqsub|]. cbn. rewrite <- app_assoc. reflexivity. }
  destruct (pollLoop config queryId _ (polls env) _) as [[[[]|err] w2]|] eqn:Hpoll;
    [| |discriminate].
  2:{ intro H. injection H as <- <-.
      destruct (pollLoop_quiet _ _ _ _ _ _ _ Hpoll) as [l [Hl Hq]].
      exists (actions sub ++ l). split; [rewrite forallb_app, Hqsub; exact Hq|].
      rewrite Hl. cbn. rewrite <- !app_assoc. reflexivity. }
  destruct (pollLoop_quiet _ _ _ _ _ _ _ Hpoll) as [l [Hl Hq]].
  destruct (isTimeout _ (clock w2)).
  - destruct (Request.stopQuery (cancel env) queryId config) as [stop|] eqn:Hstop;
      [|discriminate].
    destruct (loopFunc_quiet _ _ _ _ _ _ Hstop) as [Hqstop _].
    intro H. injection H as <- <-.
    exists (actions sub ++ l ++ actions stop).
    split; [rewrite !forallb_app, Hqsub, Hq; exact Hqstop|].
    cbn [resume trace]. rewrite Hl. cbn. rewrite <- !app_assoc. reflexivity.
  - destruct (Request.getQueryResults (fetch env) queryId maxResult nextToken)
      as [got|] eqn:Hgot; [|discriminate].
    pose proof (getQueryResults_quiet _ _ _ _ _ Hgot) as Hqgot.
    destruct (settled got) as [resultSet|err]; intro H; injection H as <- <-;
      exists (actions sub ++ l ++ actions got);
      (split; [rewrite !forallb_app, Hqsub, Hq; exact Hqgot|]).
    + exists resultSet. cbn [onGlobals log resume trace]. rewrite Hl. cbn.
      rewrite <- !app_assoc. reflexivity.
    + cbn [resume trace]. rewrite Hl. cbn. rewrite <- !app_assoc. reflexivity.
Qed.

(** Every completed execution acquires once, releases once, and ends
    either with [query_end] and [end] or with one [error]. *)
Lemma _execute_shape (env : Env) (query : string) (maxResult : Z)
      (nextToken : option string) (config : AthenaClientConfig)
      (w w' : World) :
  _execute env query maxResult nextToken config w = Some w' ->
  exists done,
    trace w' = trace w ++ done
    /\ acquisitions done = 1%nat
    /\ releases done = 1%nat
    /\ ((exists q, emitted done = [EvQueryEnd q; EvEnd])
        \/ (exists err, emitted done = [EvError err])).
Proof.
  unfold _execute.
  destruct (admission config (waiting env) w) as [w1|] eqn:Hadm; [|discriminate].
  destruct (admission_quiet _ _ _ _ Hadm) as [_ [l1 [Hl1 Hq1]]].
  destruct (quiet_silent _ Hq1) as [Ha1 [Hr1 He1]].
  destruct (tryBlock env query maxResult nextToken config w1)
    as [[c w2]|] eqn:Htry; [|discriminate].
  destruct (tryBlock_trace _ _ _ _ _ _ _ _ Htry) as [l [Hq Hl]].
  destruct (quiet_silent _ Hq) as [Ha [Hr He]].
  destruct c as [[]|err]; intro H; injection H as <-.
  - destruct Hl as [q Hl].
    exists (l1 ++ Acquire :: l ++ [Emit (EvQueryEnd q); Release; Emit EvEnd]).
    split; [|split; [|split]].
    + cbn [log trace]. rewrite Hl, Hl1. rewrite <- ?app_assoc. cbn.
      rewrite <- ?app_assoc. reflexivity.
    + rewrite acquisitions_app, Ha1.
      change (Acquire :: l ++ ?t) with ([Acquire] ++ l ++ t).
      rewrite !acquisitions_app, Ha. reflexivity.
    + rewrite releases_app, Hr1.
      change (Acquire :: l ++ ?t) with ([Acquire] ++ l ++ t).
      rewrite !releases_app, Hr. reflexivity.
    + left. exists q. rewrite emitted_app, He1.
      change (Acquire :: l ++ ?t) with ([Acquire] ++ l ++ t).
      rewrite !emitted_app, He. reflexivity.
  - exists (l1 ++ Acquire :: l ++ [Release; Emit (EvError err)]).
    split; [|split; [|split]].
    + cbn [log onGlobals trace]. rewrite Hl, Hl1. rewrite <- ?app_assoc. cbn.
      rewrite <- ?app_assoc. reflexivity.
    + rewrite acquisitions_app, Ha1.
      change (Acquire :: l ++ ?t) with ([Acquire] ++ l ++ t).
      rewrite !acquisitions_app, Ha. reflexivity.
    + rewrite releases_app, Hr1.
      change (Acquire :: l ++ ?t) with ([Acquire] ++ l ++ t).
      rewrite !releases_app, Hr. reflexivity.
    + right. exists err. rewrite emitted_app, He1.
      change (Acquire :: l ++ ?t) with ([Acquire] ++ l ++ t).
      rewrite !emitted_app, He. reflexivity.
Qed.

Lemma pollLoop_globals (config : AthenaClientConfig) (queryId : string)
      (deadline : option Z) (athena : list (list (Scripted QueryExecution))) :
  forall w c w',
    pollLoop config queryId deadline athena w = Some (c, w') ->
    globals w' = globals w.
Proof.
  induction athena as [|replies later IH]; intros w c w'.
  - rewrite pollLoop_nil. destruct (isTimeout deadline (clock w)); [|discriminate].
    intro H. injection H as _ <-. reflexivity.
  - rewrite pollLoop_cons. destruct (isTimeout deadline (clock w)).
    + intro H. injection H as _ <-. reflexivity.
    + destruct (Request.checkQuery replies queryId config) as [run|];
        [|discriminate].
      destruct (settled run) as [[|]|err]; intro H.
      * injection H as _ <-. reflexivity.
      * rewrite (IH _ _ _ H). reflexivity.
      * injection H as _ <-. reflexivity.
Qed.

(** On every exit path the globals have gone through one [startQuery]
    and one [endQuery], with the operations of the rest of the process
    in between. *)
Lemma _execute_globals (env : Env) (query : string) (maxResult : Z)
      (nextToken : option string) (config : AthenaClientConfig)
      (w w' : World) :
  _execute env query maxResult nextToken config w = Some w' ->
  exists entered,
    admission config (waiting env) w = Some entered
    /\ globals w'
       = endQuery (applyAll (running env) (startQuery (globals entered))).
Proof.
  unfold _execute.
  destruct (admission config (waiting env) w) as [w1|]; [|discriminate].
  rewrite tryBlock_stages. cbn zeta.
  destruct (Request.startQuery (submit env) query config) as [sub|];
    [|discriminate].
  destruct (settled sub) as [queryId|err].
  2:{ intro H. injection H as <-. exists w1. split; reflexivity. }
  destruct (pollLoop config queryId _ (polls env) _) as [[[[]|err] w2]|] eqn:Hpoll;
    [| |discriminate]; pose proof (pollLoop_globals _ _ _ _ _ _ _ Hpoll) as Hg.
  2:{ intro H. injection H as <-. exists w1. split; [reflexivity|].
      cbn [log onGlobals globals]. rewrite Hg. reflexivity. }
  destruct (isTimeout _ (clock w2)).
  - destruct (Request.stopQuery (cancel env) queryId config) as [stop|];
      [|discriminate].
    intro H. injection H as <-. exists w1. split; [reflexivity|].
    cbn [log onGlobals resume globals]. rewrite Hg. reflexivity.
  - destruct (Request.getQueryResults (fetch env) queryId maxResult nextToken)
      as [got|]; [|discriminate].
    destruct (settled got); intro H; injection H as <-; exists w1;
      (split; [reflexivity|]);
      cbn [log onGlobals resume globals]; rewrite Hg; reflexivity.
Qed.

(** ** The claims about one execution *)

(** C8.  Every execution that ends, with [end] after [query_end] or with
    [error] (a rejected submission, a failed or cancelled query, a
    failed fetch, a timeout), has called [startQuery] once and
    [endQuery] once: the trace holds one acquisition and one release,
    and the globals are those of one [startQuery] and one [endQuery]
    around what the rest of the process did.  [endQuery] never leaves a
    negative count, also when it is called twice, and takes exactly one
    from a positive count. *)
Theorem slot_released_exactly_once
        (env : Env) (query : string) (maxResult : Z)
        (nextToken : option string) (config : AthenaClientConfig)
        (w w' : World) :
  _execute env query maxResult nextToken config w = Some w' ->
  (exists done,
      trace w' = trace w ++ done
      /\ acquisitions done = 1%nat
      /\ releases done = 1%nat
      /\ ((exists q, emitted done = [EvQueryEnd q; EvEnd])
          \/ (exists err, emitted done = [EvError err])))
  /\ (exists entered,
         admission config (waiting env) w = Some entered
         /\ globals w'
            = endQuery (applyAll (running env) (startQuery (globals entered))))
  /\ (forall g : Globals,
         0 <= concurrentExecNum (endQuery g)
         /\ 0 <= concurrentExecNum (endQuery (endQuery g))
         /\ (0 < concurrentExecNum g ->
             concurrentExecNum (endQuery g) = concurrentExecNum g - 1)).
Proof.
  intro H. split; [|split].
  - exact (_execute_shape _ _ _ _ _ _ _ H).
  - exact (_execute_globals _ _ _ _ _ _ _ H).
  - intro g. cbn [endQuery concurrentExecNum]. lia.
Qed.

(** The three exit paths: success, a query the backend reports FAILED,
    and a timeout. *)
Lemma slot_released_exactly_once_witness :
  (exists w', execute envSelect1 "SELECT 1" 10 None (clientConfig None) initial
              = Some w'
              /\ releases (trace w') = 1%nat
              /\ toStream w' = [EvQueryEnd page3; EvEnd])
  /\ (exists w', execute envFailed "SELECT 1" 10 None (clientConfig None) initial
                 = Some w'
                 /\ releases (trace w') = 1%nat
                 /\ toStream w' = [EvError (new_Error "SYNTAX_ERROR: line 1")])
  /\ (exists w', execute (envStuck (ok tt)) "SELECT 1" 10 None
                         (clientConfig (Some 1500)) initial
                 = Some w'
                 /\ releases (trace w') = 1%nat
                 /\ toStream w' = [EvError (new_Error "query timeout")]).
Proof.
  split; [|split]; eexists; (split; [reflexivity|]);
    (split; [|reflexivity]).
  - destruct (slot_released_exactly_once envSelect1 "SELECT 1" 10 None
                (clientConfig None) (boot initial) _ eq_refl)
      as [[done [Ht [_ [Hr _]]]] _].
    rewrite Ht. exact Hr.
  - destruct (slot_released_exactly_once envFailed "SELECT 1" 10 None
                (clientConfig None) (boot initial) _ eq_refl)
      as [[done [Ht [_ [Hr _]]]] _].
    rewrite Ht. exact Hr.
  - destruct (slot_released_exactly_once (envStuck (ok tt)) "SELECT 1" 10 None
                (clientConfig (Some 1500)) (boot initial) _ eq_refl)
      as [[done [Ht [_ [Hr _]]]] _].
    rewrite Ht. exact Hr.
Defined.

(** C2 (amended).  When the polling loop ends with the deadline passed,
    [stopQuery] is called (at least one cancel request, retried like any
    status call), then the slot is released and one error is emitted:
    ['query timeout'] if the cancel succeeded, the error of the cancel
    itself if it failed.  No result page is fetched. *)
Theorem timeout_cancels_then_reports
        (env : Env) (query : string) (maxResult : Z)
        (nextToken : option string) (config : AthenaClientConfig)
        (w entered submitted polled : World)
        (sub : Run string) (queryId : string) (stop : Run unit) :
  admission config (waiting env) w = Some entered ->
  Request.startQuery (submit env) query config = Some sub ->
  settled sub = Resolved queryId ->
  submitted = resume sub (onGlobals (applyAll (running env))
                            (onGlobals startQuery (log Acquire entered))) ->
  pollLoop config queryId (timer config (clock submitted)) (polls env) submitted
  = Some (Normal tt, polled) ->
  isTimeout (timer config (clock submitted)) (clock polled) = true ->
  Request.stopQuery (cancel env) queryId config = Some stop ->
  exists w',
    _execute env query maxResult nextToken config w = Some w'
    /\ trace w'
       = trace polled ++ actions stop
         ++ [Release;
             Emit (EvError match settled stop with
                           | Resolved _ => new_Error "query timeout"
                           | Rejected err => err
                           end)]
    /\ (1 <= calls StopQueryExecution (actions stop))%nat
    /\ calls GetQueryResults (trace w') = calls GetQueryResults (trace polled)
    /\ globals w' = endQuery (globals polled).
Proof.
  intros Hadm Hsub Hid -> Hpoll Hout Hstop.
  eexists. split.
  - unfold _execute. rewrite Hadm, tryBlock_stages. cbn zeta.
    rewrite Hsub, Hid, Hpoll, Hout, Hstop. reflexivity.
  - destruct (loopFunc_quiet _ _ _ _ _ _ Hstop) as [_ Hc].
    split; [|split; [exact Hc|split; [|reflexivity]]].
    + cbn [log onGlobals resume trace]. rewrite <- !app_assoc. reflexivity.
    + cbn [log onGlobals resume trace]. rewrite !calls_app.
      rewrite (loopFunc_calls_own StopQueryExecution GetQueryResults
                 _ _ _ eq_refl _ _ Hstop).
      cbn. lia.
Qed.

(** The deadline of 1500 ms passes during the second sleep; the cancel
    succeeds in the first run and is refused in the second. *)
Lemma timeout_cancels_then_reports_witness :
  (exists w',
      execute (envStuck (ok tt)) "SELECT 1" 10 None (clientConfig (Some 1500))
              initial = Some w'
      /\ toStream w' = [EvError (new_Error "query timeout")])
  /\ (exists w',
         execute (envStuck (ko accessDenied)) "SELECT 1" 10 None
                 (clientConfig (Some 1500)) initial = Some w'
         /\ toStream w' = [EvError accessDenied]).
Proof.
  split.
  - destruct (timeout_cancels_then_reports
                (envStuck (ok tt)) "SELECT 1" 10 None (clientConfig (Some 1500))
                (boot initial) (boot initial) _ _ _ "q-1" _
                eq_refl eq_refl eq_refl eq_refl eq_refl eq_refl eq_refl)
      as [w' [Hrun [Htrace _]]].
    exists w'. split; [exact Hrun|].
    unfold toStream. rewrite Htrace. reflexivity.
  - destruct (timeout_cancels_then_reports
                (envStuck (ko accessDenied)) "SELECT 1" 10 None
                (clientConfig (Some 1500))
                (boot initial) (boot initial) _ _ _ "q-1" _
                eq_refl eq_refl eq_refl eq_refl eq_refl eq_refl eq_refl)
      as [w' [Hrun [Htrace _]]].
    exists w'. split; [exact Hrun|].
    unfold toStream. rewrite Htrace. reflexivity.
Defined.

(** C2, as stated, fails when the cancel request fails: the deadline of
    1500 ms passes during the second sleep of the polling loop, the
    cancel is refused, and the execution ends with the error of the
    cancel, not with the timeout error; the promise is rejected with it. *)
Lemma cancel_failure_counterexample :
  option_map trace
    (execute (envStuck (ko accessDenied)) "SELECT 1" 10 None
             (clientConfig (Some 1500)) initial)
  = Some [Acquire; Call StartQueryExecution;
          Call GetQueryExecution; Sleep 1000;
          Call GetQueryExecution; Sleep 1000;
          Call StopQueryExecution; Release; Emit (EvError accessDenied)]
  /\ option_map (fun w' => promise (toPromise (toStream w')))
       (execute (envStuck (ko accessDenied)) "SELECT 1" 10 None
                (clientConfig (Some 1500)) initial)
     = Some (Broken accessDenied)
  /\ accessDenied <> new_Error "query timeout".
Proof.
  repeat split. discriminate.
Qed.

Lemma checkQuery_of_getQueryExecution
      (athena : list (Scripted QueryExecution)) (queryId : string)
      (config : AthenaRequestConfig) (run : Run QueryExecution)
      (queryExecution : QueryExecution) :
  Request.getQueryExecution athena queryId config = Some run ->
  settled run = Resolved queryExecution ->
  Request.checkQuery athena queryId config
  = Some {| settled := onQueryExecution queryExecution;
            actions := actions run;
            elapsed := elapsed run |}.
Proof.
  intros Hrun Hset. unfold Request.checkQuery. rewrite Hrun, Hset. reflexivity.
Qed.

(** C6.  A status check that obtains the status of the query decides the
    polling loop: QUEUED and RUNNING resolve [false], the loop sleeps and
    checks again; SUCCEEDED resolves [true] and the loop ends; FAILED,
    CANCELLED and any other status reject and the loop ends with that
    error, whose message is the stated reason (the generic one when the
    reason is absent or empty), the cancellation message, or the unknown
    status after a fixed prefix.  In the four terminal cases the rest of
    the status script is not consulted. *)
Theorem status_decides_polling
        (config : AthenaClientConfig) (queryId : string) (deadline : option Z)
        (replies : list (Scripted QueryExecution))
        (later : list (list (Scripted QueryExecution)))
        (run : Run QueryExecution) (queryExecution : QueryExecution)
        (w : World) :
  Request.getQueryExecution replies queryId config = Some run ->
  settled run = Resolved queryExecution ->
  isTimeout deadline (clock w) = false ->
  let state := State queryExecution in
  let check := option_map settled (Request.checkQuery replies queryId config) in
  let poll := pollLoop config queryId deadline (replies :: later) w in
  let fails msg :=
    check = Some (Rejected (new_Error msg))
    /\ poll = Some (Throw (new_Error msg), resume run w) in
  (state = "QUEUED" \/ state = "RUNNING" ->
   check = Some (Resolved false)
   /\ poll = pollLoop config queryId deadline later
               (sleep (JS.or (pollingInterval config) defaultPollingInterval)
                      (resume run w)))
  /\ (state = "SUCCEEDED" ->
      check = Some (Resolved true) /\ poll = Some (Normal tt, resume run w))
  /\ (state = "FAILED" ->
      fails match StateChangeReason queryExecution with
            | Some (String c reason) => String c reason
            | Some EmptyString | None => "FAILED: Execution Error"
            end)
  /\ (state = "CANCELLED" -> fails "FAILED: Query CANCELLED")
  /\ (state <> "QUEUED" -> state <> "RUNNING" -> state <> "SUCCEEDED" ->
      state <> "FAILED" -> state <> "CANCELLED" ->
      fails (String.append "FAILED: UnKnown State " state)).
Proof.
  intros Hrun Hset Hlive. cbn zeta.
  rewrite pollLoop_cons, Hlive.
  rewrite (checkQuery_of_getQueryExecution _ _ _ _ _ Hrun Hset).
  cbn [option_map settled]. unfold onQueryExecution.
  split; [|split; [|split; [|split]]].
  - intros [-> | ->]; split; reflexivity.
  - intros ->. split; reflexivity.
  - intros ->. cbn [String.eqb Ascii.eqb Bool.eqb orb]. unfold JS.or_str.
    destruct (StateChangeReason queryExecution) as [[|c reason]|];
      split; reflexivity.
  - intros ->. split; reflexivity.
  - intros H1 H2 H3 H4 H5.
    apply String.eqb_neq in H1, H2, H3, H4, H5.
    rewrite H1, H2, H3, H4, H5. split; reflexivity.
Qed.

Lemma status_decides_polling_witness :
  pollLoop (clientConfig None) "q-1" None
           [[ok (status "RUNNING")]; [ok (status "SUCCEEDED")];
            [ok (status "RUNNING")]]
           (boot initial)
  = Some (Normal tt,
          {| globals := initial; clock := 1010;
             trace := [Call GetQueryExecution; Sleep 1000;
                       Call GetQueryExecution] |}).
Proof.
  destruct (status_decides_polling (clientConfig None) "q-1" None
              [ok (status "RUNNING")]
              [[ok (status "SUCCEEDED")]; [ok (status "RUNNING")]]
              _ (status "RUNNING") (boot initial)
              eq_refl eq_refl eq_refl) as [Hrunning _].
  destruct (Hrunning (or_intror eq_refl)) as [_ ->].
  destruct (status_decides_polling (clientConfig None) "q-1" None
              [ok (status "SUCCEEDED")] [[ok (status "RUNNING")]]
              _ (status "SUCCEEDED")
              (sleep 1000 (resume (settle GetQueryExecution
                                          (ok (status "RUNNING"))
                                          (Resolved (status "RUNNING")))
                                  (boot initial)))
              eq_refl eq_refl eq_refl) as [_ [Hsucceeded _]].
  destruct (Hsucceeded eq_refl) as [_ Hpoll].
  exact Hpoll.
Defined.

(** ** The admission counter *)

Lemma startQuery_clamped (g : Globals) :
  concurrentExecNum (startQuery g) <= concurrentExecMax (startQuery g).
Proof. cbn [startQuery concurrentExecNum concurrentExecMax]. lia. Qed.

Lemma apply_nonneg (o : GlobalOp) (g : Globals) :
  ceilingOk o = true ->
  0 <= concurrentExecNum g ->
  0 <= concurrentExecMax g ->
  0 <= concurrentExecNum (apply g o) /\ 0 <= concurrentExecMax (apply g o).
Proof.
  intros Hok Hnum Hmax. destruct o as [| |val|config]; cbn [apply].
  - cbn [startQuery concurrentExecNum concurrentExecMax]. lia.
  - cbn [endQuery concurrentExecNum concurrentExecMax]. lia.
  - cbn [ceilingOk] in Hok. apply Z.leb_le in Hok.
    cbn [setConcurrentExecMax concurrentExecNum concurrentExecMax]. lia.
  - cbn [ceilingOk] in Hok. unfold constructor. cbn [fst].
    destruct (Config.concurrentExecMax config) as [val|]; [|lia].
    apply Z.leb_le in Hok.
    destruct (JS.truthy (Some val));
      cbn [setConcurrentExecMax concurrentExecNum concurrentExecMax]; lia.
Qed.

Lemma applyAll_nonneg (ops : list GlobalOp) :
  forall g,
    forallb ceilingOk ops = true ->
    0 <= concurrentExecNum g ->
    0 <= concurrentExecMax g ->
    0 <= concurrentExecNum (applyAll ops g)
    /\ 0 <= concurrentExecMax (applyAll ops g).
Proof.
  unfold applyAll.
  induction ops as [|o ops IH]; intros g Hok Hnum Hmax; [cbn; lia|].
  cbn [forallb] in Hok. apply andb_true_iff in Hok as [Ho Hops].
  cbn [fold_left].
  destruct (apply_nonneg o g Ho Hnum Hmax) as [Hn Hm].
  exact (IH _ Hops Hn Hm).
Qed.

Lemma endQuery_iter_within (n : nat) (g : Globals) :
  0 <= concurrentExecNum g <= concurrentExecMax g ->
  0 <= concurrentExecNum (Nat.iter n endQuery g)
    <= concurrentExecMax (Nat.iter n endQuery g).
Proof.
  intro H. induction n as [|n IH]; [exact H|].
  rewrite Nat.iter_succ.
  cbn [endQuery concurrentExecNum concurrentExecMax]. lia.
Qed.

(** C9 (amended).  [startQuery] adds one to the count and clamps the
    result at the current ceiling, which it leaves as it is: after any
    call the count is at most the ceiling, it is the former count plus
    one when that was below the ceiling, and the ceiling itself when the
    count was at or above it.  After any history of the process (calls
    of [startQuery] and [endQuery], changes of the ceiling to
    non-negative values, from [setConcurrentExecMax] or a constructor)
    the count is not negative, and a call of [startQuery] then leaves it
    within [0, ceiling]; the releases that follow keep it there.
    Changing the ceiling leaves the count as it is. *)
Theorem counter_within_ceiling (ops : list GlobalOp) :
  forallb ceilingOk ops = true ->
  (forall g : Globals,
      concurrentExecNum (startQuery g) <= concurrentExecMax (startQuery g)
      /\ concurrentExecMax (startQuery g) = concurrentExecMax g
      /\ (concurrentExecNum g < concurrentExecMax g ->
          concurrentExecNum (startQuery g) = concurrentExecNum g + 1)
      /\ (concurrentExecMax g <= concurrentExecNum g ->
          concurrentExecNum (startQuery g) = concurrentExecMax g))
  /\ (forall (g : Globals) (val : Z),
         concurrentExecNum (setConcurrentExecMax val g) = concurrentExecNum g
         /\ concurrentExecMax (setConcurrentExecMax val g) = val)
  /\ 0 <= concurrentExecNum (applyAll ops initial)
  /\ (0 <= concurrentExecNum (startQuery (applyAll ops initial))
        <= concurrentExecMax (startQuery (applyAll ops initial)))
  /\ (forall n : nat,
         0 <= concurrentExecNum
                (Nat.iter n endQuery (startQuery (applyAll ops initial)))
           <= concurrentExecMax
                (Nat.iter n endQuery (startQuery (applyAll ops initial)))).
Proof.
  intro Hok.
  destruct (applyAll_nonneg ops initial Hok) as [Hnum Hmax];
    [cbn; lia | cbn; lia |].
  assert (0 <= concurrentExecNum (startQuery (applyAll ops initial))
            <= concurrentExecMax (startQuery (applyAll ops initial))) as Hin
      by (cbn [startQuery concurrentExecNum concurrentExecMax]; lia).
  split.
  { intro g. split; [apply startQuery_clamped|].
    cbn [startQuery concurrentExecNum concurrentExecMax].
    split; [reflexivity|]. split; intro H; lia. }
  split; [intros g val; split; reflexivity|].
  split; [exact Hnum|].
  split; [exact Hin|].
  intro n. apply endQuery_iter_within. exact Hin.
Qed.

(** Five executions run at the ceiling of 5 and a sixth call finds the
    count at the ceiling; then the ceiling is lowered to 2 and the next
    call clamps the count to it. *)
Lemma counter_within_ceiling_witness :
  concurrentExecNum (startQuery (applyAll (repeat OpStartQuery 5) initial)) = 5
  /\ concurrentExecNum (startQuery (applyAll (repeat OpStartQuery 3) initial))
     = 4
  /\ 0 <= concurrentExecNum
            (startQuery
               (applyAll (repeat OpStartQuery 5 ++ [OpSetConcurrentExecMax 2])
                         initial))
       <= 2.
Proof.
  destruct (counter_within_ceiling
              (repeat OpStartQuery 5 ++ [OpSetConcurrentExecMax 2]) eq_refl)
    as [Hstart [_ [_ [H _]]]].
  destruct (Hstart (applyAll (repeat OpStartQuery 5) initial))
    as [_ [_ [_ Hfull]]].
  destruct (Hstart (applyAll (repeat OpStartQuery 3) initial))
    as [_ [_ [Hfree _]]].
  split; [exact (Hfull ltac:(cbn; lia))|].
  split; [exact (Hfree ltac:(cbn; lia))|].
  exact H.
Defined.

(** C9, as stated, fails when the ceiling is lowered while executions
    run: five executions have started under the ceiling of 5, the
    ceiling is set to 2, and the count is 5, above the ceiling; it is
    still 4 after one of them has ended. *)
Lemma lowered_ceiling_counterexample :
  applyAll (repeat OpStartQuery 5 ++ [OpSetConcurrentExecMax 2]) initial
  = {| concurrentExecMax := 2; concurrentExecNum := 5 |}
  /\ applyAll (repeat OpStartQuery 5 ++ [OpSetConcurrentExecMax 2; OpEndQuery])
              initial
     = {| concurrentExecMax := 2; concurrentExecNum := 4 |}
  /\ ~ (0 <= 5 <= 2)
  /\ ~ (0 <= 4 <= 2).
Proof.
  split; [reflexivity|]. split; [reflexivity|]. split; lia.
Qed.

(** ** Defaults *)

(** C10.  An explicit 0 is read as an absent option.
    - [pollingInterval: 0]: the polling loop sleeps 1000 ms;
    - [execRightCheckInterval: 0]: the admission loop sleeps 100 ms;
    - [baseRetryWait: 0]: the waits are computed from 200;
    - [retryWaitMax: 0]: the submission wait is capped at 10000;
    - [retryCountMax: 0]: a retry is allowed while fewer than 10 were made;
    - [concurrentExecMax: 0]: the constructor leaves the globals as they
      are. *)
Theorem zero_is_absent (config : AthenaClientConfig) :
  (pollingInterval config = Some 0 ->
   forall queryId deadline replies later run w,
     isTimeout deadline (clock w) = false ->
     Request.checkQuery replies queryId config = Some run ->
     settled run = Resolved false ->
     pollLoop config queryId deadline (replies :: later) w
     = pollLoop config queryId deadline later (sleep 1000 (resume run w)))
  /\ (execRightCheckInterval config = Some 0 ->
      forall ops later w,
        canStartQuery (globals w) = false ->
        admission config (ops :: later) w
        = admission config later (onGlobals (applyAll ops) (sleep 100 w)))
  /\ (baseRetryWait config = Some 0 ->
      forall n,
        startQueryWait config n = Z.min (200 * 2 ^ Z.of_nat n) (maxWait config)
        /\ stopQueryWait config n = Math_pow 200 n
        /\ getQueryExecutionWait config n = Math_pow 200 n)
  /\ (retryWaitMax config = Some 0 ->
      forall n,
        startQueryWait config n
        = Z.min (baseWait config * 2 ^ Z.of_nat n) 10000)
  /\ (retryCountMax config = Some 0 ->
      forall n, canRetry n config = (Z.of_nat n <? 10))
  /\ (Config.concurrentExecMax config = Some 0 ->
      forall g, fst (constructor config g) = g).
Proof.
  split; [|split; [|split; [|split; [|split]]]].
  - intros H queryId deadline replies later run w Hlive Hrun Hset.
    rewrite pollLoop_cons, Hlive, Hrun, Hset, H. reflexivity.
  - intros H ops later w Hfull. cbn [admission]. rewrite Hfull, H. reflexivity.
  - intros H n.
    unfold startQueryWait, stopQueryWait, getQueryExecutionWait, maxWait.
    rewrite H. repeat split.
  - intros H n. unfold startQueryWait, baseWait. rewrite H. reflexivity.
  - intros H n. unfold canRetry. rewrite H. reflexivity.
  - intros H g. unfold constructor. rewrite H. reflexivity.
Qed.

Lemma zero_is_absent_witness :
  pollLoop zeroConfig "q-1" None
           [[ok (status "RUNNING")]; [ok (status "SUCCEEDED")]] (boot initial)
  = Some (Normal tt,
          {| globals := initial; clock := 1010;
             trace := [Call GetQueryExecution; Sleep 1000;
                       Call GetQueryExecution] |})
  /\ admission zeroConfig [[OpSetConcurrentExecMax 1]]
               (boot (setConcurrentExecMax 0 initial))
     = Some {| globals := setConcurrentExecMax 1 initial; clock := 100;
               trace := [Sleep 100] |}
  /\ startQueryWait zeroConfig 6 = 10000
  /\ stopQueryWait zeroConfig 1 = 200
  /\ canRetry 9 zeroConfig = true
  /\ fst (constructor zeroConfig initial) = initial.
Proof.
  destruct (zero_is_absent zeroConfig)
    as [Hpoll [Hadm [Hbase [Hmax [Hcount Hceiling]]]]].
  split; [|split; [|split; [|split; [|split]]]].
  - rewrite (Hpoll eq_refl "q-1" None [ok (status "RUNNING")]
                   [[ok (status "SUCCEEDED")]]
                   {| settled := Resolved false;
                      actions := [Call GetQueryExecution];
                      elapsed := 5 |}
                   (boot initial) eq_refl eq_refl eq_refl).
    reflexivity.
  - rewrite (Hadm eq_refl [OpSetConcurrentExecMax 1] []
                  (boot (setConcurrentExecMax 0 initial)) eq_refl).
    reflexivity.
  - rewrite (Hmax eq_refl 6%nat). reflexivity.
  - destruct (Hbase eq_refl 1%nat) as [_ [-> _]]. reflexivity.
  - rewrite (Hcount eq_refl 9%nat). reflexivity.
  - exact (Hceiling eq_refl initial).
Defined.

(** ** The aggregate view *)

(** The [data] listener collects the records; it touches neither the
    promise nor [resultSet]. *)
Lemma on_data_promise (recs : list (list string)) :
  forall l,
    promise (fold_left on (map EvData recs) l) = promise l
    /\ resultSet (fold_left on (map EvData recs) l) = resultSet l
    /\ records (fold_left on (map EvData recs) l) = records l ++ recs.
Proof.
  induction recs as [|r recs IH]; intro l.
  - cbn. rewrite app_nil_r. auto.
  - cbn [map fold_left]. destruct (IH (on l (EvData r))) as [Hp [Hq Hr]].
    rewrite Hp, Hq, Hr. cbn [on promise resultSet records].
    rewrite <- app_assoc. auto.
Qed.

(** Whatever records the stream emits before [query_end] and [end], the
    promise is fulfilled with the value given to [query_end] alone. *)
Lemma toPromise_resultSet_only (recs : list (list string)) (q : ResultPage) :
  promise (toPromise (map EvData recs ++ [EvQueryEnd q; EvEnd]))
  = Fulfilled (Some q)
  /\ records (toPromise (map EvData recs ++ [EvQueryEnd q; EvEnd])) = recs.
Proof.
  unfold toPromise. rewrite fold_left_app.
  destruct (on_data_promise recs attached) as [Hp [Hq Hr]].
  cbn [fold_left on promise records resultSet]. rewrite Hp, Hr.
  split; reflexivity.
Qed.

(** The aggregate view of any completed execution: fulfilled with the
    page given to [query_end], with no record collected, or rejected with
    the error the stream emits. *)
Lemma aggregate_view_of_execution (env : Env) (query : string) (maxResult : Z)
      (nextToken : option string) (config : AthenaClientConfig)
      (g : Globals) (w' : World) :
  execute env query maxResult nextToken config g = Some w' ->
  (exists q,
      toStream w' = [EvQueryEnd q; EvEnd]
      /\ toPromise (toStream w')
         = {| records := []; resultSet := Some q;
              promise := Fulfilled (Some q) |})
  \/ (exists err,
         toStream w' = [EvError err]
         /\ promise (toPromise (toStream w')) = Broken err).
Proof.
  intro H. unfold execute in H.
  destruct (_execute_shape _ _ _ _ _ _ _ H) as [done [Ht [_ [_ Hev]]]].
  unfold toStream. rewrite Ht. cbn [boot trace app].
  destruct Hev as [[q ->] | [err ->]].
  - left. exists q. split; reflexivity.
  - right. exists err. split; reflexivity.
Qed.

(** C1 at the failing input: "SELECT 1", SUCCEEDED after two polls, one
    page of three rows.  The stream carries [query_end] with the raw page
    and [end], no record; the listener of [toPromise] has collected no
    record and the promise is fulfilled with the raw page alone, not
    with the records and the metadata of the execution. *)
Theorem aggregate_view_resolves_with_raw_page :
  option_map toStream
    (execute envSelect1 "SELECT 1" 10 None (clientConfig None) initial)
  = Some [EvQueryEnd page3; EvEnd]
  /\ option_map (fun w' => toPromise (toStream w'))
       (execute envSelect1 "SELECT 1" 10 None (clientConfig None) initial)
     = Some {| records := [];
               resultSet := Some page3;
               promise := Fulfilled (Some page3) |}
  /\ (forall recs q,
         promise (toPromise (map EvData recs ++ [EvQueryEnd q; EvEnd]))
         = Fulfilled (Some q)).
Proof.
  split; [reflexivity|]. split; [reflexivity|].
  intros recs q. apply toPromise_resultSet_only.
Qed.

(** ** The retry loop on any script *)

(** The waits of a run are the waits of its retry counts, the retries
    stay within the cap, and each retry is one more call. *)
Lemma loopFunc_any {A} (op : Operation) (wait : nat -> Number)
      (config : AthenaRequestConfig) (athena : list (Scripted A)) :
  forall n run,
    loopFunc op wait config n athena = Some run ->
    waits run = map wait (seq n (retries run))
    /\ Z.of_nat n + Z.of_nat (retries run) <= Z.max (Z.of_nat n) (retryCap config)
    /\ calls op (actions run) = S (retries run).
Proof.
  induction athena as [|r later IH]; intros n run; [discriminate|].
  cbn [loopFunc].
  assert (forall s, waits (settle op r s) = map wait (seq n (retries (settle op r s)))
                    /\ Z.of_nat n + Z.of_nat (retries (settle op r s))
                       <= Z.max (Z.of_nat n) (retryCap config)
                    /\ calls op (actions (settle op r s))
                       = S (retries (settle op r s))) as Hsettle.
  { intro s. unfold retries. rewrite waits_settle, calls_settle.
    cbn [List.length seq map]. repeat split. lia. }
  destruct (reply r) as [err|data].
  - destruct (isRetryException err && canRetry n config) eqn:Hretry.
    + apply andb_true_iff in Hretry as [_ Hcan].
      rewrite canRetry_cap in Hcan. apply Z.ltb_lt in Hcan.
      destruct (loopFunc op wait config (S n) later) as [rest|] eqn:Hrest;
        [|discriminate].
      cbn [option_map]. intro H. injection H as <-.
      destruct (IH _ _ Hrest) as [Hw [Hcap Hc]].
      assert (waits (again op r (wait n) rest) = wait n :: waits rest) as Hwa
          by (unfold waits; destruct op; reflexivity).
      assert (retries (again op r (wait n) rest) = S (retries rest)) as Hra
          by (unfold retries; rewrite Hwa; reflexivity).
      rewrite Hwa, Hra, Hw. cbn [seq map].
      split; [reflexivity|]. split; [lia|].
      unfold calls in *. destruct op; cbn [again actions filter is_call List.length];
        rewrite Hc; reflexivity.
    + intro H. injection H as <-. apply Hsettle.
  - intro H. injection H as <-. apply Hsettle.
Qed.

Lemma loopFunc_never_exceeds {A} (op : Operation) (wait : nat -> Number)
      (config : AthenaRequestConfig) :
  @NeverExceedsCap A op (loopFunc op wait config 0) config.
Proof.
  intros athena run Hrun.
  destruct (loopFunc_any op wait config athena 0 run Hrun) as [_ [Hcap Hc]].
  split; [cbn in Hcap; lia | exact Hc].
Qed.

(** X1.  The number of retries of [startQuery], [stopQuery] and
    [getQueryExecution] never exceeds the effective [retryCountMax]
    (none at all when it is negative), whatever the backend replies, and
    the number of calls is the number of retries plus one. *)
Theorem retries_never_exceed_cap
        (config : AthenaRequestConfig) (query queryId : string) :
  NeverExceedsCap StartQueryExecution
                  (fun athena => Request.startQuery athena query config) config
  /\ NeverExceedsCap StopQueryExecution
                     (fun athena => Request.stopQuery athena queryId config)
                     config
  /\ NeverExceedsCap GetQueryExecution
                     (fun athena => Request.getQueryExecution athena queryId config)
                     config.
Proof.
  split; [|split]; apply loopFunc_never_exceeds.
Qed.

(** Fifteen throttling errors in a row against the default cap of 10:
    ten retries, eleven calls. *)
Lemma retries_never_exceed_cap_witness :
  exists run,
    Request.startQuery (repeat (ko throttling) 15) "SELECT 1" (requestConfig None)
    = Some run
    /\ retries run = 10%nat
    /\ calls StartQueryExecution (actions run) = 11%nat
    /\ Z.of_nat (retries run) <= Z.max 0 (retryCap (requestConfig None)).
Proof.
  destruct (retries_never_exceed_cap (requestConfig None) "SELECT 1" "q-1")
    as [Hstart _].
  eexists. split; [reflexivity|].
  split; [reflexivity|]. split; [reflexivity|].
  apply (Hstart (repeat (ko throttling) 15) _ eq_refl).
Defined.

Lemma loopFunc_rejects_permanent {A} (op : Operation) (wait : nat -> Number)
      (config : AthenaRequestConfig) :
  @RejectsPermanent A op (loopFunc op wait config 0).
Proof.
  intros r rest err Hreply Hperm.
  rewrite loopFunc_settles by (unfold transient; rewrite Hreply; exact Hperm).
  unfold settle, outcome. rewrite Hreply. reflexivity.
Qed.

(** X2.  An error that is neither a throttling error, nor a
    too-many-requests error, nor the resource-exhaustion message is never
    retried by [startQuery], [stopQuery] and [getQueryExecution]: the
    promise is rejected with it after a single call, and [checkQuery]
    rejects with the same error. *)
Theorem permanent_error_is_not_retried
        (config : AthenaRequestConfig) (query queryId : string) :
  RejectsPermanent StartQueryExecution
                   (fun athena => Request.startQuery athena query config)
  /\ RejectsPermanent StopQueryExecution
                      (fun athena => Request.stopQuery athena queryId config)
  /\ RejectsPermanent GetQueryExecution
                      (fun athena => Request.getQueryExecution athena queryId config)
  /\ (forall r rest err,
         reply r = Failure err ->
         isRetryException err = false ->
         Request.checkQuery (r :: rest) queryId config
         = Some {| settled := Rejected err;
                   actions := [Call GetQueryExecution];
                   elapsed := Z.of_nat (latency r) |}).
Proof.
  split; [|split; [|split]]; try apply loopFunc_rejects_permanent.
  intros r rest err Hreply Hperm.
  unfold Request.checkQuery, Request.getQueryExecution.
  rewrite (loopFunc_rejects_permanent GetQueryExecution
             (getQueryExecutionWait config) config r rest err Hreply Hperm).
  reflexivity.
Qed.

Lemma permanent_error_is_not_retried_witness :
  Request.startQuery [ko accessDenied; ok "q-1"] "SELECT 1" (requestConfig None)
  = Some {| settled := Rejected accessDenied;
            actions := [Call StartQueryExecution];
            elapsed := 5 |}.
Proof.
  destruct (permanent_error_is_not_retried (requestConfig None) "SELECT 1" "q-1")
    as [Hstart _].
  exact (Hstart (ko accessDenied) [ok "q-1"] accessDenied eq_refl eq_refl).
Defined.



(** ** One execution, stage by stage *)

Lemma timerDelay_pos (ms : Z) : 1 <= timerDelay ms.
Proof.
  unfold timerDelay.
  destruct (ms <? 1) eqn:Hlow; [cbn; lia|].
  destruct (2147483647 <? ms); cbn; [lia|].
  apply Z.ltb_ge in Hlow. exact Hlow.
Qed.

(** When the timer has just been set, the flag is still down. *)
Lemma timer_not_passed (config : AthenaClientConfig) (started : Z) :
  isTimeout (timer config started) started = false.
Proof.
  unfold timer.
  destruct (JS.or (queryTimeout config) defaultQueryTimeout =? 0);
    [reflexivity|].
  cbn [isTimeout]. apply Z.leb_gt.
  pose proof (timerDelay_pos (JS.or (queryTimeout config) defaultQueryTimeout)).
  lia.
Qed.

Lemma admission_open (config : AthenaClientConfig)
      (others : list (list GlobalOp)) (w : World) :
  canStartQuery (globals w) = true -> admission config others w = Some w.
Proof. intro H. destruct others; cbn [admission]; rewrite H; reflexivity. Qed.

Lemma admission_calls (config : AthenaClientConfig)
      (others : list (list GlobalOp)) (op : Operation) :
  forall w w',
    admission config others w = Some w' ->
    calls op (trace w') = calls op (trace w).
Proof.
  induction others as [|ops later IH]; intros w w'; cbn [admission];
    destruct (canStartQuery (globals w)).
  - intro H. injection H as <-. reflexivity.
  - discriminate.
  - intro H. injection H as <-. reflexivity.
  - intro H. rewrite (IH _ _ H). cbn [onGlobals sleep trace].
    rewrite calls_app. destruct op; cbn; lia.
Qed.

Lemma checkQuery_calls (athena : list (Scripted QueryExecution))
      (queryId : string) (config : AthenaRequestConfig) (run : Run bool)
      (other : Operation) :
  Request.checkQuery athena queryId config = Some run ->
  (1 <= calls GetQueryExecution (actions run))%nat
  /\ (is_call other (Call GetQueryExecution) = false ->
      calls other (actions run) = 0%nat).
Proof.
  unfold Request.checkQuery.
  destruct (Request.getQueryExecution athena queryId config) as [r|] eqn:Hr;
    [|discriminate].
  intro H. injection H as <-. cbn [actions]. split.
  - apply (loopFunc_quiet _ _ _ _ _ _ Hr).
  - intro Hne. exact (loopFunc_calls_own _ _ _ _ _ Hne _ _ Hr).
Qed.

(** The polling loop calls [getQueryExecution] and nothing else. *)
Lemma pollLoop_calls (config : AthenaClientConfig) (queryId : string)
      (deadline : option Z) (athena : list (list (Scripted QueryExecution)))
      (other : Operation) :
  is_call other (Call GetQueryExecution) = false ->
  forall w c w',
    pollLoop config queryId deadline athena w = Some (c, w') ->
    calls other (trace w') = calls other (trace w).
Proof.
  intro Hne.
  induction athena as [|replies later IH]; intros w c w'.
  - rewrite pollLoop_nil. destruct (isTimeout deadline (clock w)); [|discriminate].
    intro H. injection H as _ <-. reflexivity.
  - rewrite pollLoop_cons. destruct (isTimeout deadline (clock w)).
    + intro H. injection H as _ <-. reflexivity.
    + destruct (Request.checkQuery replies queryId config) as [run|] eqn:Hrun;
        [|discriminate].
      destruct (checkQuery_calls _ _ _ _ other Hrun) as [_ Hzero].
      specialize (Hzero Hne).
      destruct (settled run) as [[|]|err]; intro H.
      * injection H as _ <-. cbn [resume trace]. rewrite calls_app. lia.
      * rewrite (IH _ _ _ H). cbn [sleep resume trace]. rewrite !calls_app.
        rewrite Hzero. destruct other; cbn; lia.
      * injection H as _ <-. cbn [resume trace]. rewrite calls_app. lia.
Qed.

(** X4.  When the submission is rejected (a permanent error, or a
    transient one past the cap), the execution ends at once: the slot is
    released, the error of the submission is emitted, and neither a
    status check, nor a cancel, nor a fetch is made. *)
Theorem rejected_submission_ends_execution
        (env : Env) (query : string) (maxResult : Z)
        (nextToken : option string) (config : AthenaClientConfig)
        (w entered : World) (sub : Run string) (err : Error) :
  admission config (waiting env) w = Some entered ->
  Request.startQuery (submit env) query config = Some sub ->
  settled sub = Rejected err ->
  exists w',
    _execute env query maxResult nextToken config w = Some w'
    /\ trace w'
       = trace entered ++ Acquire :: actions sub ++ [Release; Emit (EvError err)]
    /\ calls GetQueryExecution (trace w') = calls GetQueryExecution (trace w)
    /\ calls StopQueryExecution (trace w') = calls StopQueryExecution (trace w)
    /\ calls GetQueryResults (trace w') = calls GetQueryResults (trace w)
    /\ globals w'
       = endQuery (applyAll (running env) (startQuery (globals entered))).
Proof.
  intros Hadm Hsub Herr.
  eexists. split.
  - unfold _execute. rewrite Hadm, tryBlock_stages. cbn zeta.
    rewrite Hsub, Herr. reflexivity.
  - cbn [log onGlobals resume trace globals].
    split; [rewrite <- !app_assoc; reflexivity|].
    rewrite !calls_app, !(admission_calls _ _ _ _ _ Hadm).
    rewrite (loopFunc_calls_own StartQueryExecution GetQueryExecution
               _ _ _ eq_refl _ _ Hsub),
      (loopFunc_calls_own StartQueryExecution StopQueryExecution
         _ _ _ eq_refl _ _ Hsub),
      (loopFunc_calls_own StartQueryExecution GetQueryResults
         _ _ _ eq_refl _ _ Hsub).
    repeat split; cbn; lia.
Qed.

Lemma rejected_submission_ends_execution_witness :
  exists w',
    execute {| waiting := []; running := [];
               submit := [ko accessDenied];
               polls := [[ok (status "SUCCEEDED")]];
               cancel := []; fetch := [ok page3] |}
            "SELECT 1" 10 None (clientConfig None) initial = Some w'
    /\ trace w'
       = [Acquire; Call StartQueryExecution; Release; Emit (EvError accessDenied)].
Proof.
  destruct (rejected_submission_ends_execution
              {| waiting := []; running := [];
                 submit := [ko accessDenied];
                 polls := [[ok (status "SUCCEEDED")]];
                 cancel := []; fetch := [ok page3] |}
              "SELECT 1" 10 None (clientConfig None)
              (boot initial) (boot initial) _ accessDenied
              eq_refl eq_refl eq_refl) as [w' [Hrun [Htrace _]]].
  exists w'. split; [exact Hrun | exact Htrace].
Defined.

(** X5.  When a status check rejects (the query FAILED or was CANCELLED,
    the status is unknown, or [getQueryExecution] itself failed), the
    execution releases the slot and emits that error, without cancelling
    and without fetching, also when the deadline has passed meanwhile. *)
Theorem rejected_status_check_ends_execution
        (env : Env) (query : string) (maxResult : Z)
        (nextToken : option string) (config : AthenaClientConfig)
        (w entered submitted polled : World)
        (sub : Run string) (queryId : string) (err : Error) :
  admission config (waiting env) w = Some entered ->
  Request.startQuery (submit env) query config = Some sub ->
  settled sub = Resolved queryId ->
  submitted = resume sub (onGlobals (applyAll (running env))
                            (onGlobals startQuery (log Acquire entered))) ->
  pollLoop config queryId (timer config (clock submitted)) (polls env) submitted
  = Some (Throw err, polled) ->
  exists w',
    _execute env query maxResult nextToken config w = Some w'
    /\ trace w' = trace polled ++ [Release; Emit (EvError err)]
    /\ calls StopQueryExecution (trace w') = calls StopQueryExecution (trace w)
    /\ calls GetQueryResults (trace w') = calls GetQueryResults (trace w)
    /\ globals w' = endQuery (globals polled).
Proof.
  intros Hadm Hsub Hid -> Hpoll.
  eexists. split.
  - unfold _execute. rewrite Hadm, tryBlock_stages. cbn zeta.
    rewrite Hsub, Hid, Hpoll. reflexivity.
  - cbn [log onGlobals trace globals].
    split; [rewrite <- !app_assoc; reflexivity|].
    rewrite !calls_app.
    rewrite (pollLoop_calls _ _ _ _ StopQueryExecution eq_refl _ _ _ Hpoll),
      (pollLoop_calls _ _ _ _ GetQueryResults eq_refl _ _ _ Hpoll).
    cbn [log onGlobals resume trace].
    rewrite !calls_app, !(admission_calls _ _ _ _ _ Hadm).
    rewrite (loopFunc_calls_own StartQueryExecution StopQueryExecution
               _ _ _ eq_refl _ _ Hsub),
      (loopFunc_calls_own StartQueryExecution GetQueryResults
         _ _ _ eq_refl _ _ Hsub).
    repeat split; cbn; lia.
Qed.

(** The deadline of 8 ms has passed when the first status check, which
    takes 20 ms, reports FAILED: the failure is reported, not a timeout. *)
Lemma rejected_status_check_ends_execution_witness :
  exists w',
    execute {| waiting := []; running := [];
               submit := [ok "q-1"];
               polls := [[{| latency := 20;
                             reply := Success (status "FAILED") |}]];
               cancel := [ok tt]; fetch := [ok page3] |}
            "SELECT 1" 10 None (clientConfig (Some 8)) initial = Some w'
    /\ trace w'
       = [Acquire; Call StartQueryExecution; Call GetQueryExecution;
          Release; Emit (EvError (new_Error "FAILED: Execution Error"))].
Proof.
  destruct (rejected_status_check_ends_execution
              {| waiting := []; running := [];
                 submit := [ok "q-1"];
                 polls := [[{| latency := 20;
                               reply := Success (status "FAILED") |}]];
                 cancel := [ok tt]; fetch := [ok page3] |}
              "SELECT 1" 10 None (clientConfig (Some 8))
              (boot initial) (boot initial) _ _ _ "q-1"
              (new_Error "FAILED: Execution Error")
              eq_refl eq_refl eq_refl eq_refl eq_refl)
    as [w' [Hrun [Htrace _]]].
  exists w'. split; [exact Hrun | exact Htrace].
Defined.

Lemma timer_unset (config : AthenaClientConfig) (started : Z) :
  queryTimeout config = None \/ queryTimeout config = Some 0 ->
  timer config started = None.
Proof. unfold timer. intros [-> | ->]; reflexivity. Qed.

Lemma getQueryResults_actions (athena : list (Scripted ResultPage))
      (id : string) (n : Z) (token : option string) (run : Run ResultPage) :
  Request.getQueryResults athena id n token = Some run ->
  actions run = [Call GetQueryResults]
  /\ exists r rest, athena = r :: rest /\ settled run = outcome r.
Proof.
  destruct athena as [|r rest]; [discriminate|].
  rewrite getQueryResults_first. intro H. injection H as <-.
  split; [reflexivity|]. exists r, rest. split; reflexivity.
Qed.

(** X6.  Without a timeout ([queryTimeout] unset or 0) an execution
    never calls [stopQuery], however long the polling lasts and however
    it ends. *)
Theorem no_timeout_never_cancels
        (env : Env) (query : string) (maxResult : Z)
        (nextToken : option string) (config : AthenaClientConfig)
        (w w' : World) :
  queryTimeout config = None \/ queryTimeout config = Some 0 ->
  _execute env query maxResult nextToken config w = Some w' ->
  calls StopQueryExecution (trace w') = calls StopQueryExecution (trace w).
Proof.
  intro Hunset. unfold _execute.
  destruct (admission config (waiting env) w) as [w1|] eqn:Hadm; [|discriminate].
  rewrite <- (admission_calls _ _ StopQueryExecution _ _ Hadm).
  rewrite tryBlock_stages. cbn zeta.
  destruct (Request.startQuery (submit env) query config) as [sub|] eqn:Hsub;
    [|discriminate].
  pose proof (loopFunc_calls_own StartQueryExecution StopQueryExecution
                _ _ _ eq_refl _ _ Hsub) as Hs.
  destruct (settled sub) as [queryId|err].
  2:{ intro H. injection H as <-. cbn [log onGlobals resume trace].
      rewrite !calls_app, Hs. cbn. lia. }
  rewrite (timer_unset _ _ Hunset).
  destruct (pollLoop config queryId None (polls env) _) as [[[[]|err] w2]|] eqn:Hpoll;
    [| |discriminate];
    pose proof (pollLoop_calls _ _ _ _ StopQueryExecution eq_refl _ _ _ Hpoll)
      as Hp;
    cbn [log onGlobals resume trace] in Hp; rewrite !calls_app, Hs in Hp.
  2:{ intro H. injection H as <-. cbn [log onGlobals trace].
      rewrite !calls_app, Hp. cbn. lia. }
  cbn [isTimeout].
  destruct (Request.getQueryResults (fetch env) queryId maxResult nextToken)
    as [got|] eqn:Hgot; [|discriminate].
  destruct (getQueryResults_actions _ _ _ _ _ Hgot) as [Hact _].
  destruct (settled got); intro H; injection H as <-;
    cbn [log onGlobals resume trace]; rewrite !calls_app, Hp, Hact; cbn; lia.
Qed.

Lemma no_timeout_never_cancels_witness :
  exists w',
    execute envSelect1 "SELECT 1" 10 None (clientConfig (Some 0)) initial
    = Some w'
    /\ calls StopQueryExecution (trace w') = 0%nat.
Proof.
  eexists. split; [reflexivity|].
  exact (no_timeout_never_cancels envSelect1 "SELECT 1" 10 None
           (clientConfig (Some 0)) (boot initial) _ (or_intror eq_refl) eq_refl).
Defined.

(** X7.  However short the timeout, the polling loop entered when the
    timer has just been set checks the status at least once before it
    ends: the timer cannot fire before the first suspension. *)
Theorem status_is_checked_at_least_once
        (config : AthenaClientConfig) (queryId : string)
        (athena : list (list (Scripted QueryExecution)))
        (w w' : World) (c : Completion unit) :
  pollLoop config queryId (timer config (clock w)) athena w = Some (c, w') ->
  exists l,
    trace w' = trace w ++ l
    /\ (1 <= calls GetQueryExecution l)%nat.
Proof.
  destruct athena as [|replies later].
  - rewrite pollLoop_nil, timer_not_passed. discriminate.
  - rewrite pollLoop_cons, timer_not_passed.
    destruct (Request.checkQuery replies queryId config) as [run|] eqn:Hrun;
      [|discriminate].
    destruct (checkQuery_calls _ _ _ _ GetQueryExecution Hrun) as [Hone _].
    destruct (settled run) as [[|]|err]; intro H.
    + injection H as _ <-. exists (actions run). split; [reflexivity|exact Hone].
    + destruct (pollLoop_quiet _ _ _ _ _ _ _ H) as [l [Hl _]].
      exists (actions run
              ++ Sleep (JS.or (pollingInterval config) defaultPollingInterval)
              :: l).
      split.
      * rewrite Hl. cbn [sleep resume trace]. rewrite <- !app_assoc. reflexivity.
      * rewrite calls_app. lia.
    + injection H as _ <-. exists (actions run). split; [reflexivity|exact Hone].
Qed.

(** With a timeout of 1 ms and a status check that takes 5 ms, the status
    is checked once, then the loop ends on the flag. *)
Lemma status_is_checked_at_least_once_witness :
  exists w',
    pollLoop (clientConfig (Some 1)) "q-1" (timer (clientConfig (Some 1)) 0)
             [[ok (status "RUNNING")]; [ok (status "RUNNING")]] (boot initial)
    = Some (Normal tt, w')
    /\ trace w' = [Call GetQueryExecution; Sleep 1000]
    /\ exists l, trace w' = [] ++ l /\ (1 <= calls GetQueryExecution l)%nat.
Proof.
  eexists. split; [reflexivity|]. split; [reflexivity|].
  exact (status_is_checked_at_least_once
           (clientConfig (Some 1)) "q-1"
           [[ok (status "RUNNING")]; [ok (status "RUNNING")]]
           (boot initial) _ (Normal tt) eq_refl).
Defined.

(** X8.  The polling loop ends normally with the flag down only after a
    status check has reported SUCCEEDED: a result page is never fetched
    for a query the backend has not reported as succeeded. *)
Theorem fetch_only_after_succeeded
        (config : AthenaClientConfig) (queryId : string) (deadline : option Z)
        (athena : list (list (Scripted QueryExecution))) :
  forall w w',
    pollLoop config queryId deadline athena w = Some (Normal tt, w') ->
    isTimeout deadline (clock w') = false ->
    exists replies run queryExecution,
      In replies athena
      /\ Request.getQueryExecution replies queryId config = Some run
      /\ settled run = Resolved queryExecution
      /\ State queryExecution = "SUCCEEDED".
Proof.
  induction athena as [|replies later IH]; intros w w'.
  - rewrite pollLoop_nil.
    destruct (isTimeout deadline (clock w)) eqn:Hflag; [|discriminate].
    intro H. injection H as <-. rewrite Hflag. discriminate.
  - rewrite pollLoop_cons.
    destruct (isTimeout deadline (clock w)) eqn:Hflag.
    { intro H. injection H as <-. rewrite Hflag. discriminate. }
    unfold Request.checkQuery.
    destruct (Request.getQueryExecution replies queryId config) as [run|] eqn:Hrun;
      [|discriminate].
    cbn [settled].
    destruct (settled run) as [queryExecution|err] eqn:Hset; [|discriminate].
    destruct (onQueryExecution queryExecution) as [[|]|err] eqn:Hstate.
    + intros _ _. exists replies, run, queryExecution.
      split; [left; reflexivity|]. split; [exact Hrun|]. split; [exact Hset|].
      unfold onQueryExecution in Hstate.
      destruct (String.eqb (State queryExecution) "QUEUED"
                || String.eqb (State queryExecution) "RUNNING"); [discriminate|].
      destruct (String.eqb (State queryExecution) "SUCCEEDED") eqn:Hs.
      * apply String.eqb_eq. exact Hs.
      * destruct (String.eqb (State queryExecution) "FAILED"); [discriminate|].
        destruct (String.eqb (State queryExecution) "CANCELLED"); discriminate.
    + intros H Hdown. destruct (IH _ _ H Hdown) as [r [x [q [Hin Hrest]]]].
      exists r, x, q. split; [right; exact Hin | exact Hrest].
    + discriminate.
Qed.

Lemma fetch_only_after_succeeded_witness :
  exists replies run queryExecution,
    In replies (polls envSelect1)
    /\ Request.getQueryExecution replies "q-1" (clientConfig None) = Some run
    /\ settled run = Resolved queryExecution
    /\ State queryExecution = "SUCCEEDED".
Proof.
  exact (fetch_only_after_succeeded
           (clientConfig None) "q-1" None (polls envSelect1)
           (boot initial) _ eq_refl eq_refl).
Defined.

(** X9.  After a polling loop that ended with the flag down, the page is
    fetched with exactly one call and its first reply ends the
    execution: a page is emitted with [query_end], then the slot is
    released, then [end] is emitted; an error of the fetch, transient or
    not, is emitted after the release. *)
Theorem fetch_reply_ends_execution
        (env : Env) (query : string) (maxResult : Z)
        (nextToken : option string) (config : AthenaClientConfig)
        (w entered submitted polled : World)
        (sub : Run string) (queryId : string)
        (r : Scripted ResultPage) (rest : list (Scripted ResultPage)) :
  admission config (waiting env) w = Some entered ->
  Request.startQuery (submit env) query config = Some sub ->
  settled sub = Resolved queryId ->
  submitted = resume sub (onGlobals (applyAll (running env))
                            (onGlobals startQuery (log Acquire entered))) ->
  pollLoop config queryId (timer config (clock submitted)) (polls env) submitted
  = Some (Normal tt, polled) ->
  isTimeout (timer config (clock submitted)) (clock polled) = false ->
  fetch env = r :: rest ->
  exists w',
    _execute env query maxResult nextToken config w = Some w'
    /\ trace w'
       = trace polled
         ++ Call GetQueryResults
         :: match reply r with
            | Success q => [Emit (EvQueryEnd q); Release; Emit EvEnd]
            | Failure err => [Release; Emit (EvError err)]
            end
    /\ calls StopQueryExecution (trace w') = calls StopQueryExecution (trace w)
    /\ globals w' = endQuery (globals polled).
Proof.
  intros Hadm Hsub Hid -> Hpoll Hdown Hfetch.
  assert (exists w',
             _execute env query maxResult nextToken config w = Some w'
             /\ trace w'
                = trace polled
                  ++ Call GetQueryResults
                  :: match reply r with
                     | Success q => [Emit (EvQueryEnd q); Release; Emit EvEnd]
                     | Failure err => [Release; Emit (EvError err)]
                     end
             /\ globals w' = endQuery (globals polled)) as [w' [Hrun [Ht Hg]]].
  { unfold _execute. rewrite Hadm, tryBlock_stages. cbn zeta.
    rewrite Hsub, Hid, Hpoll, Hdown, Hfetch, getQueryResults_first.
    unfold outcome. cbn [settled settle].
    destruct (reply r) as [err|q]; eexists; (split; [reflexivity|]);
      cbn [log onGlobals resume trace globals actions settle];
      (split; [rewrite <- !app_assoc; reflexivity | reflexivity]). }
  exists w'. split; [exact Hrun|]. split; [exact Ht|]. split; [|exact Hg].
  rewrite Ht, calls_app.
  rewrite (pollLoop_calls _ _ _ _ StopQueryExecution eq_refl _ _ _ Hpoll).
  cbn [log onGlobals resume trace].
  rewrite !calls_app, (admission_calls _ _ _ _ _ Hadm).
  rewrite (loopFunc_calls_own StartQueryExecution StopQueryExecution
             _ _ _ eq_refl _ _ Hsub).
  destruct (reply r); cbn; lia.
Qed.

Lemma fetch_reply_ends_execution_witness :
  exists w',
    execute envSelect1 "SELECT 1" 10 None (clientConfig None) initial = Some w'
    /\ trace w'
       = [Acquire; Call StartQueryExecution;
          Call GetQueryExecution; Sleep 1000;
          Call GetQueryExecution; Sleep 1000;
          Call GetQueryExecution;
          Call GetQueryResults; Emit (EvQueryEnd page3); Release; Emit EvEnd].
Proof.
  destruct (fetch_reply_ends_execution
              envSelect1 "SELECT 1" 10 None (clientConfig None)
              (boot initial) (boot initial) _ _ _ "q-1" (ok page3) []
              eq_refl eq_refl eq_refl eq_refl eq_refl eq_refl eq_refl)
    as [w' [Hrun [Htrace _]]].
  exists w'. split; [exact Hrun | exact Htrace].
Defined.

(** X10.  The timeout wins over a success: when the deadline passes
    during the status check that reports SUCCEEDED, the execution cancels
    the query and, the cancel succeeding, emits ['query timeout']; the
    page is not fetched. *)
Theorem timeout_wins_over_success
        (env : Env) (query : string) (maxResult : Z)
        (nextToken : option string) (config : AthenaClientConfig)
        (w entered submitted : World)
        (sub : Run string) (queryId : string)
        (replies : list (Scripted QueryExecution))
        (later : list (list (Scripted QueryExecution)))
        (check : Run bool) (stop : Run unit) :
  admission config (waiting env) w = Some entered ->
  Request.startQuery (submit env) query config = Some sub ->
  settled sub = Resolved queryId ->
  submitted = resume sub (onGlobals (applyAll (running env))
                            (onGlobals startQuery (log Acquire entered))) ->
  polls env = replies :: later ->
  Request.checkQuery replies queryId config = Some check ->
  settled check = Resolved true ->
  isTimeout (timer config (clock submitted)) (clock (resume check submitted))
  = true ->
  Request.stopQuery (cancel env) queryId config = Some stop ->
  settled stop = Resolved tt ->
  exists w',
    _execute env query maxResult nextToken config w = Some w'
    /\ trace w'
       = trace submitted ++ actions check ++ actions stop
         ++ [Release; Emit (EvError (new_Error "query timeout"))]
    /\ calls GetQueryResults (trace w') = calls GetQueryResults (trace w).
Proof.
  intros Hadm Hsub Hid Hsubmitted Hpolls Hcheck Htrue Hflag Hstop Hcancelled.
  assert (pollLoop config queryId (timer config (clock submitted)) (polls env)
                   submitted
          = Some (Normal tt, resume check submitted)) as Hpoll.
  { rewrite Hpolls, pollLoop_cons, timer_not_passed, Hcheck, Htrue.
    reflexivity. }
  eexists. split; [|split].
  - unfold _execute. rewrite Hadm, tryBlock_stages. cbn zeta.
    rewrite Hsub, Hid, <- Hsubmitted, Hpoll, Hflag, Hstop, Hcancelled.
    reflexivity.
  - cbn [log onGlobals resume trace]. rewrite <- !app_assoc. reflexivity.
  - cbn [log onGlobals resume trace]. rewrite !calls_app.
    destruct (checkQuery_calls _ _ _ _ GetQueryResults Hcheck) as [_ Hc].
    rewrite (Hc eq_refl).
    rewrite (loopFunc_calls_own StopQueryExecution GetQueryResults
               _ _ _ eq_refl _ _ Hstop).
    rewrite Hsubmitted. cbn [log onGlobals resume trace].
    rewrite !calls_app, (admission_calls _ _ _ _ _ Hadm).
    rewrite (loopFunc_calls_own StartQueryExecution GetQueryResults
               _ _ _ eq_refl _ _ Hsub).
    cbn. lia.
Qed.

Lemma timeout_wins_over_success_witness :
  exists w',
    execute envSlowSuccess "SELECT 1" 10 None (clientConfig (Some 8)) initial
    = Some w'
    /\ trace w'
       = [Acquire; Call StartQueryExecution; Call GetQueryExecution;
          Call StopQueryExecution; Release;
          Emit (EvError (new_Error "query timeout"))].
Proof.
  destruct (timeout_wins_over_success
              envSlowSuccess "SELECT 1" 10 None (clientConfig (Some 8))
              (boot initial) (boot initial) _ _ "q-1" _ [] _ _
              eq_refl eq_refl eq_refl eq_refl eq_refl eq_refl eq_refl eq_refl
              eq_refl eq_refl)
    as [w' [Hrun [Htrace _]]].
  exists w'. split; [exact Hrun | exact Htrace].
Defined.

(** ** The admission gate *)

(** X11.  An execution that ends gives back the slot it took: when no
    other code touches the globals while it runs and the count is not
    negative at admission, the globals at the end are those at the
    admission; the acquisition made after the gate is never clamped. *)
Theorem execution_restores_counter
        (env : Env) (query : string) (maxResult : Z)
        (nextToken : option string) (config : AthenaClientConfig)
        (w w' entered : World) :
  _execute env query maxResult nextToken config w = Some w' ->
  admission config (waiting env) w = Some entered ->
  running env = [] ->
  0 <= concurrentExecNum (globals entered) ->
  concurrentExecNum (startQuery (globals entered))
  = concurrentExecNum (globals entered) + 1
  /\ globals w' = globals entered.
Proof.
  intros Hrun Hadm Hnone Hpos.
  destruct (_execute_globals _ _ _ _ _ _ _ Hrun) as [e [He Hg]].
  rewrite Hadm in He. injection He as <-.
  destruct (admission_quiet _ _ _ _ Hadm) as [Hcan _].
  unfold canStartQuery in Hcan. apply Z.ltb_lt in Hcan.
  rewrite Hg, Hnone. unfold applyAll. cbn [fold_left].
  revert Hcan Hpos. destruct (globals entered) as [ceiling count].
  unfold endQuery, startQuery. cbn [concurrentExecNum concurrentExecMax].
  intros Hcan Hpos. split; [lia|]. f_equal. lia.
Qed.

Lemma execution_restores_counter_witness :
  exists w',
    execute envFailed "SELECT 1" 10 None (clientConfig None)
            {| concurrentExecMax := 5; concurrentExecNum := 4 |} = Some w'
    /\ globals w' = {| concurrentExecMax := 5; concurrentExecNum := 4 |}.
Proof.
  eexists. split; [reflexivity|].
  apply (execution_restores_counter
           envFailed "SELECT 1" 10 None (clientConfig None)
           (boot {| concurrentExecMax := 5; concurrentExecNum := 4 |}) _
           (boot {| concurrentExecMax := 5; concurrentExecNum := 4 |})
           eq_refl eq_refl eq_refl).
  cbn. lia.
Defined.

(** X12.  From an idle process with a non-negative ceiling, [n] calls of
    [startQuery] leave the count at the smaller of [n] and the ceiling,
    and the gate [canStartQuery] is open exactly while [n] is below the
    ceiling. *)
Theorem slots_fill_up_to_ceiling (ceiling : Z) (n : nat) :
  0 <= ceiling ->
  concurrentExecNum
    (Nat.iter n startQuery
              {| concurrentExecMax := ceiling; concurrentExecNum := 0 |})
  = Z.min (Z.of_nat n) ceiling
  /\ concurrentExecMax
       (Nat.iter n startQuery
                 {| concurrentExecMax := ceiling; concurrentExecNum := 0 |})
     = ceiling
  /\ canStartQuery
       (Nat.iter n startQuery
                 {| concurrentExecMax := ceiling; concurrentExecNum := 0 |})
     = (Z.of_nat n <? ceiling).
Proof.
  intro Hpos.
  assert (concurrentExecNum
            (Nat.iter n startQuery
                      {| concurrentExecMax := ceiling; concurrentExecNum := 0 |})
          = Z.min (Z.of_nat n) ceiling
          /\ concurrentExecMax
               (Nat.iter n startQuery
                         {| concurrentExecMax := ceiling;
                            concurrentExecNum := 0 |})
             = ceiling) as [Hnum Hmax].
  { induction n as [|n [IHnum IHmax]]; [cbn; lia|].
    rewrite Nat.iter_succ.
    cbn [startQuery concurrentExecNum concurrentExecMax].
    rewrite IHnum, IHmax. lia. }
  split; [exact Hnum|]. split; [exact Hmax|].
  unfold canStartQuery. rewrite Hnum, Hmax.
  destruct (Z.of_nat n <? ceiling) eqn:H.
  - apply Z.ltb_lt in H. apply Z.ltb_lt. lia.
  - apply Z.ltb_ge in H. apply Z.ltb_ge. lia.
Qed.

Lemma slots_fill_up_to_ceiling_witness :
  concurrentExecNum (Nat.iter 7 startQuery initial) = 5
  /\ canStartQuery (Nat.iter 4 startQuery initial) = true
  /\ canStartQuery (Nat.iter 5 startQuery initial) = false.
Proof.
  destruct (slots_fill_up_to_ceiling 5 7) as [H7 _]; [lia|].
  destruct (slots_fill_up_to_ceiling 5 4) as [_ [_ H4]]; [lia|].
  destruct (slots_fill_up_to_ceiling 5 5) as [_ [_ H5]]; [lia|].
  split; [exact H7|]. split; [exact H4 | exact H5].
Defined.

(** X13.  An execution that finds the count at or above a positive
    ceiling waits for releases: when one other execution ends during
    each sleep, it is admitted after exactly [count - ceiling + 1]
    sleeps of the check interval, with the count just below the ceiling;
    with fewer releases than that it is not admitted. *)
Theorem admission_waits_for_releases
        (config : AthenaClientConfig) (k : nat) :
  forall w : World,
    0 < concurrentExecMax (globals w) ->
    concurrentExecMax (globals w) <= concurrentExecNum (globals w) ->
    ((Z.to_nat (concurrentExecNum (globals w) - concurrentExecMax (globals w) + 1)
      <= k)%nat ->
     exists w',
       admission config (repeat [OpEndQuery] k) w = Some w'
       /\ globals w'
          = {| concurrentExecMax := concurrentExecMax (globals w);
               concurrentExecNum := concurrentExecMax (globals w) - 1 |}
       /\ trace w'
          = trace w
            ++ repeat (Sleep (JS.or (execRightCheckInterval config)
                                    defaultExecRightCheckInterval))
                      (Z.to_nat (concurrentExecNum (globals w)
                                 - concurrentExecMax (globals w) + 1)))
    /\ ((k < Z.to_nat (concurrentExecNum (globals w)
                       - concurrentExecMax (globals w) + 1))%nat ->
        admission config (repeat [OpEndQuery] k) w = None).
Proof.
  induction k as [|k IH]; intros w Hceil Hfull.
  - assert (canStartQuery (globals w) = false) as Hcan
        by (apply Z.ltb_ge; exact Hfull).
    split; [intro H; lia|]. intros _. cbn [repeat admission].
    rewrite Hcan. reflexivity.
  - assert (canStartQuery (globals w) = false) as Hcan
        by (apply Z.ltb_ge; exact Hfull).
    cbn [repeat admission]. rewrite Hcan.
    set (i := JS.or (execRightCheckInterval config) defaultExecRightCheckInterval).
    set (w1 := onGlobals (applyAll [OpEndQuery]) (sleep i w)).
    assert (concurrentExecMax (globals w1) = concurrentExecMax (globals w)
            /\ concurrentExecNum (globals w1)
               = concurrentExecNum (globals w) - 1
            /\ trace w1 = trace w ++ [Sleep i]) as [Hmax1 [Hnum1 Htrace1]].
    { unfold w1, applyAll.
      cbn [fold_left apply onGlobals sleep globals trace endQuery
           concurrentExecMax concurrentExecNum].
      repeat split. lia. }
    destruct (Z.eq_dec (concurrentExecNum (globals w))
                       (concurrentExecMax (globals w))) as [Heq|Hneq].
    + assert (canStartQuery (globals w1) = true) as Hopen
          by (apply Z.ltb_lt; lia).
      rewrite (admission_open _ _ _ Hopen).
      replace (Z.to_nat (concurrentExecNum (globals w)
                         - concurrentExecMax (globals w) + 1))
        with 1%nat by lia.
      split; [|intro H; lia].
      intros _. exists w1. split; [reflexivity|].
      split; [|exact Htrace1].
      destruct (globals w1) as [m c].
      cbn [concurrentExecMax concurrentExecNum] in *. f_equal; lia.
    + destruct (IH w1) as [Hin Hout]; [lia | lia |].
      rewrite Hmax1, Hnum1 in Hin, Hout.
      replace (Z.to_nat (concurrentExecNum (globals w)
                         - concurrentExecMax (globals w) + 1))
        with (S (Z.to_nat (concurrentExecNum (globals w) - 1
                           - concurrentExecMax (globals w) + 1)))
        by lia.
      split.
      * intro Hk. destruct Hin as [w' [Hrun [Hg Ht]]]; [lia|].
        exists w'. split; [exact Hrun|]. split; [exact Hg|].
        rewrite Ht, Htrace1. cbn [repeat]. rewrite <- app_assoc. reflexivity.
      * intro Hk. apply Hout. lia.
Qed.

(** Seven executions run under a ceiling lowered to 5: three releases
    are needed, two are not enough. *)
Lemma admission_waits_for_releases_witness :
  (exists w',
      admission (clientConfig None) (repeat [OpEndQuery] 4)
                (boot {| concurrentExecMax := 5; concurrentExecNum := 7 |})
      = Some w'
      /\ globals w' = {| concurrentExecMax := 5; concurrentExecNum := 4 |}
      /\ trace w' = [Sleep 100; Sleep 100; Sleep 100])
  /\ admission (clientConfig None) (repeat [OpEndQuery] 2)
               (boot {| concurrentExecMax := 5; concurrentExecNum := 7 |})
     = None.
Proof.
  split.
  - destruct (admission_waits_for_releases
                (clientConfig None) 4
                (boot {| concurrentExecMax := 5; concurrentExecNum := 7 |}))
      as [Hin _]; [cbn; lia | cbn; lia |].
    apply Hin. cbn. lia.
  - destruct (admission_waits_for_releases
                (clientConfig None) 2
                (boot {| concurrentExecMax := 5; concurrentExecNum := 7 |}))
      as [_ Hout]; [cbn; lia | cbn; lia |].
    apply Hout. cbn. lia.
Defined.

Lemma slotOnly_keeps_closed (ops : list GlobalOp) :
  forall g,
    forallb slotOnly ops = true ->
    concurrentExecMax g <= 0 ->
    concurrentExecMax g <= concurrentExecNum g ->
    concurrentExecMax (applyAll ops g) = concurrentExecMax g
    /\ concurrentExecMax g <= concurrentExecNum (applyAll ops g).
Proof.
  unfold applyAll.
  induction ops as [|o ops IH]; intros g Hok Hzero Hfull; [cbn; lia|].
  cbn [forallb] in Hok. apply andb_true_iff in Hok as [Ho Hops].
  cbn [fold_left].
  assert (concurrentExecMax (apply g o) = concurrentExecMax g
          /\ concurrentExecMax g <= concurrentExecNum (apply g o)) as [Hm Hn].
  { destruct o; try discriminate Ho;
      cbn [apply startQuery endQuery concurrentExecMax concurrentExecNum];
      split; lia. }
  destruct (IH (apply g o) Hops) as [Hm' Hn']; [lia | lia |].
  split; lia.
Qed.

(** X14.  With a ceiling of 0 (or below) the gate stays closed whatever
    the other executions acquire and release: no execution is admitted
    until the ceiling itself is changed. *)
Theorem closed_ceiling_admits_nothing
        (env : Env) (query : string) (maxResult : Z)
        (nextToken : option string) (config : AthenaClientConfig) :
  forall w : World,
    concurrentExecMax (globals w) <= 0 ->
    concurrentExecMax (globals w) <= concurrentExecNum (globals w) ->
    forallb (forallb slotOnly) (waiting env) = true ->
    admission config (waiting env) w = None
    /\ _execute env query maxResult nextToken config w = None.
Proof.
  assert (forall others w,
             concurrentExecMax (globals w) <= 0 ->
             concurrentExecMax (globals w) <= concurrentExecNum (globals w) ->
             forallb (forallb slotOnly) others = true ->
             admission config others w = None) as Hadm.
  { induction others as [|ops later IH]; intros w Hzero Hfull Hok;
      cbn [admission];
      (replace (canStartQuery (globals w)) with false
        by (symmetry; apply Z.ltb_ge; exact Hfull)); [reflexivity|].
    cbn [forallb] in Hok. apply andb_true_iff in Hok as [Hops Hlater].
    destruct (slotOnly_keeps_closed ops (globals w) Hops Hzero Hfull)
      as [Hm Hn].
    apply IH; cbn [onGlobals sleep globals]; [lia | lia | exact Hlater]. }
  intros w Hzero Hfull Hok. split; [exact (Hadm _ _ Hzero Hfull Hok)|].
  unfold _execute. rewrite (Hadm _ _ Hzero Hfull Hok). reflexivity.
Qed.

Lemma closed_ceiling_admits_nothing_witness :
  execute {| waiting := [[OpEndQuery]; [OpStartQuery; OpEndQuery]; []];
             running := []; submit := [ok "q-1"];
             polls := [[ok (status "SUCCEEDED")]];
             cancel := []; fetch := [ok page3] |}
          "SELECT 1" 10 None (clientConfig None)
          (setConcurrentExecMax 0 initial)
  = None.
Proof.
  apply (closed_ceiling_admits_nothing
           {| waiting := [[OpEndQuery]; [OpStartQuery; OpEndQuery]; []];
              running := []; submit := [ok "q-1"];
              polls := [[ok (status "SUCCEEDED")]];
              cancel := []; fetch := [ok page3] |}
           "SELECT 1" 10 None (clientConfig None)
           (boot (setConcurrentExecMax 0 initial))).
  - cbn. lia.
  - cbn. lia.
  - reflexivity.
Defined.

(** ** The constructor and the request parameters *)

(** X15.  The constructor throws ['KMS key required'] exactly when the
    encryption option is SSE_KMS or CSE_KMS and no KMS key is given, and
    throws nothing else.  A non-zero [concurrentExecMax] of the
    configuration becomes the ceiling of the whole process before that
    check, hence also when the constructor throws; without one the
    globals are left as they are. *)
Theorem constructor_sets_ceiling_then_checks_key
        (config : AthenaClientConfig) (g : Globals) :
  (snd (constructor config g) = Some (new_Error "KMS key required")
   <-> (encryptionOption config = Some "SSE_KMS"
        \/ encryptionOption config = Some "CSE_KMS")
       /\ encryptionKmsKey config = None)
  /\ (snd (constructor config g) = None
      \/ snd (constructor config g) = Some (new_Error "KMS key required"))
  /\ (forall val,
         Config.concurrentExecMax config = Some val -> val <> 0 ->
         fst (constructor config g) = setConcurrentExecMax val g)
  /\ (Config.concurrentExecMax config = None -> fst (constructor config g) = g).
Proof.
  unfold constructor. cbn [fst snd].
  split; [|split; [|split]].
  - destruct (encryptionOption config) as [o|].
    + destruct (String.eqb o "SSE_KMS") eqn:Hs.
      * apply String.eqb_eq in Hs. subst o. cbn [orb andb].
        destruct (encryptionKmsKey config); split;
          try discriminate; try (intros [_ H]; discriminate H); auto.
      * destruct (String.eqb o "CSE_KMS") eqn:Hc.
        -- apply String.eqb_eq in Hc. subst o. cbn [orb andb].
           destruct (encryptionKmsKey config); split;
             try discriminate; try (intros [_ H]; discriminate H); auto.
        -- cbn [orb andb]. split; [discriminate|].
           apply String.eqb_neq in Hs, Hc.
           intros [[H|H] _]; injection H as H; contradiction.
    + cbn [andb]. split; [discriminate|]. intros [[H|H] _]; discriminate H.
  - destruct (_ && _); auto.
  - intros val Hval Hnz. rewrite Hval. unfold JS.truthy.
    replace (val =? 0) with false by (symmetry; apply Z.eqb_neq; exact Hnz).
    reflexivity.
  - intros ->. reflexivity.
Qed.

Lemma constructor_sets_ceiling_then_checks_key_witness :
  constructor (kmsConfig (Some "SSE_KMS") None (Some 2)) initial
  = (setConcurrentExecMax 2 initial, Some (new_Error "KMS key required")).
Proof.
  destruct (constructor_sets_ceiling_then_checks_key
              (kmsConfig (Some "SSE_KMS") None (Some 2)) initial)
    as [[_ Hthrows] [_ [Hceiling _]]].
  rewrite (surjective_pairing (constructor _ initial)).
  rewrite (Hceiling 2 eq_refl), Hthrows.
  - reflexivity.
  - split; [left; reflexivity | reflexivity].
  - discriminate.
Defined.

(** X16.  The parameters of the submission: the database and the
    workgroup are never empty (['default'] and ['primary'] stand in for
    an absent or empty one); without an encryption option no encryption
    configuration is sent, whatever the key; and a configuration the
    constructor has accepted with SSE_KMS or CSE_KMS carries that option
    with its key, unless the key is the empty string, which the
    constructor accepts and the request leaves out. *)
Theorem submission_parameters
        (config : AthenaClientConfig) (g : Globals) (query : string) :
  Database (QueryExecutionContext (startQueryParams query config)) <> ""
  /\ WorkGroup (startQueryParams query config) <> ""
  /\ (encryptionOption config = None \/ encryptionOption config = Some "" ->
      EncryptionConfiguration (ResultConfiguration (startQueryParams query config))
      = None)
  /\ (forall enc,
         snd (constructor config g) = None ->
         encryptionOption config = Some enc ->
         enc = "SSE_KMS" \/ enc = "CSE_KMS" ->
         exists key,
           encryptionKmsKey config = Some key
           /\ EncryptionConfiguration
                (ResultConfiguration (startQueryParams query config))
              = Some {| EncryptionOption := enc;
                        KmsKey := if String.eqb key "" then None
                                  else Some key |}).
Proof.
  unfold startQueryParams.
  cbn [Database QueryExecutionContext WorkGroup EncryptionConfiguration
       ResultConfiguration].
  split; [|split; [|split]].
  - unfold JS.or_str. destruct (database config) as [[|c s]|]; discriminate.
  - unfold JS.or_str. destruct (workGroup config) as [[|c s]|]; discriminate.
  - intros [-> | ->]; reflexivity.
  - intros enc Haccepted Henc Hkms.
    unfold constructor in Haccepted. cbn [snd] in Haccepted.
    rewrite Henc in Haccepted. rewrite Henc.
    assert (String.eqb enc "SSE_KMS" || String.eqb enc "CSE_KMS" = true) as Hb
        by (destruct Hkms as [-> | ->]; reflexivity).
    rewrite Hb in Haccepted. cbn [andb] in Haccepted.
    destruct (encryptionKmsKey config) as [key|]; [|discriminate Haccepted].
    exists key. split; [reflexivity|].
    assert (whenTruthy (Some enc) = Some enc) as ->
        by (destruct Hkms as [-> | ->]; reflexivity).
    destruct key; reflexivity.
Qed.

Lemma submission_parameters_witness :
  startQueryParams "SELECT 1" (kmsConfig (Some "SSE_KMS") (Some "key-1") None)
  = {| QueryString := "SELECT 1";
       ResultConfiguration :=
         {| OutputLocation := "s3://bucket/out";
            EncryptionConfiguration :=
              Some {| EncryptionOption := "SSE_KMS";
                      KmsKey := Some "key-1" |} |};
       QueryExecutionContext := {| Database := "default" |};
       WorkGroup := "primary" |}
  /\ EncryptionConfiguration
       (ResultConfiguration
          (startQueryParams "SELECT 1" (kmsConfig (Some "CSE_KMS") (Some "") None)))
     = Some {| EncryptionOption := "CSE_KMS"; KmsKey := None |}
  /\ EncryptionConfiguration
       (ResultConfiguration
          (startQueryParams "SELECT 1" (kmsConfig None (Some "key-1") None)))
     = None.
Proof.
  split; [reflexivity|]. split.
  - destruct (submission_parameters
                (kmsConfig (Some "CSE_KMS") (Some "") None) initial "SELECT 1")
      as [_ [_ [_ Hkms]]].
    destruct (Hkms "CSE_KMS" eq_refl eq_refl (or_intror eq_refl))
      as [key [Hkey Hparams]].
    injection Hkey as <-. exact Hparams.
  - destruct (submission_parameters
                (kmsConfig None (Some "key-1") None) initial "SELECT 1")
      as [_ [_ [Hnone _]]].
    exact (Hnone (or_introl eq_refl)).
Defined.

(** ** The aggregate view on any stream *)

Lemma on_settled (events : list StreamEvent) :
  forall l,
    promise l <> Pending ->
    promise (fold_left on events l) = promise l.
Proof.
  induction events as [|ev events IH]; intros l Hl; [reflexivity|].
  cbn [fold_left].
  assert (promise (on l ev) = promise l) as Hsame.
  { destruct ev; cbn [on promise]; try reflexivity;
      destruct (promise l); try reflexivity; contradiction. }
  rewrite IH; rewrite Hsame; [reflexivity | exact Hl].
Qed.

Lemma on_before_terminal (pre : list StreamEvent) :
  forall l,
    forallb (fun ev => negb (terminal ev)) pre = true ->
    promise (fold_left on pre l) = promise l
    /\ resultSet (fold_left on pre l)
       = fold_left (fun acc ev => match ev with
                                  | EvQueryEnd q => Some q
                                  | _ => acc
                                  end) pre (resultSet l).
Proof.
  induction pre as [|ev pre IH]; intros l Hpre; [split; reflexivity|].
  cbn [forallb] in Hpre. apply andb_true_iff in Hpre as [Hev Hpre].
  cbn [fold_left].
  destruct (IH (on l ev) Hpre) as [Hp Hr]. rewrite Hp, Hr.
  destruct ev; try discriminate Hev; split; reflexivity.
Qed.

(** X17.  The promise of [toPromise] is settled by the first [end] or
    [error] its listeners see, and by nothing after it: as long as they
    have seen neither it is pending; an [error] rejects it with that
    error; an [end] fulfils it with the value of the last [query_end]
    they have seen before, or with [undefined] when they have seen none
    (as for listeners that see nothing but the [end]). *)
Theorem promise_settles_on_first_terminal_event
        (pre post : list StreamEvent) :
  forallb (fun ev => negb (terminal ev)) pre = true ->
  promise (toPromise pre) = Pending
  /\ promise (toPromise (pre ++ EvEnd :: post)) = Fulfilled (announced pre)
  /\ (forall err,
         promise (toPromise (pre ++ EvError err :: post)) = Broken err).
Proof.
  intro Hpre. unfold toPromise, announced.
  destruct (on_before_terminal pre attached Hpre) as [Hp Hr].
  split; [exact Hp|]. split.
  - rewrite fold_left_app. cbn [fold_left].
    rewrite on_settled.
    + cbn [on promise]. rewrite Hp, Hr. reflexivity.
    + cbn [on promise]. rewrite Hp. discriminate.
  - intro err. rewrite fold_left_app. cbn [fold_left].
    rewrite on_settled.
    + cbn [on promise]. rewrite Hp. reflexivity.
    + cbn [on promise]. rewrite Hp. discriminate.
Qed.

Lemma promise_settles_on_first_terminal_event_witness :
  promise (toPromise [EvData ["1"]; EvQueryEnd page3]) = Pending
  /\ promise (toPromise ([] ++ EvEnd :: [])) = Fulfilled None
  /\ promise (toPromise ([EvData ["1"]] ++ EvEnd :: [EvError throttling]))
     = Fulfilled None
  /\ promise (toPromise ([EvQueryEnd page3]
                         ++ EvError throttling :: [EvEnd]))
     = Broken throttling.
Proof.
  destruct (promise_settles_on_first_terminal_event
              [EvData ["1"]; EvQueryEnd page3] [] eq_refl) as [H1 _].
  destruct (promise_settles_on_first_terminal_event
              [EvData ["1"]] [EvError throttling] eq_refl) as [_ [H2 _]].
  destruct (promise_settles_on_first_terminal_event
              [EvQueryEnd page3] [EvEnd] eq_refl) as [_ [_ H3]].
  destruct (promise_settles_on_first_terminal_event [] [] eq_refl)
    as [_ [H4 _]].
  split; [exact H1|]. split; [exact H4|].
  split; [exact H2 | exact (H3 throttling)].
Defined.

(** ** The location of a result object *)

Lemma split_cons (sep : ascii) (s : string) :
  exists first others, split sep s = first :: others.
Proof.
  destruct s as [|c s]; [exists EmptyString, []; reflexivity|].
  cbn [split]. destruct (Ascii.eqb c sep); [eauto|].
  destruct (split sep s) as [|first others]; eauto.
Qed.

Lemma join_cons_char (sep : string) (c : ascii) (first : string)
      (others : list string) :
  join sep (String c first :: others) = String c (join sep (first :: others)).
Proof. destruct others; reflexivity. Qed.

(** Splitting and joining on the same separator gives the string back. *)
Lemma join_split (s : string) : join "/" (split "/" s) = s.
Proof.
  induction s as [|c s IH]; [reflexivity|].
  cbn [split]. destruct (Ascii.eqb c "/") eqn:Hc.
  - apply Ascii.eqb_eq in Hc. subst c.
    destruct (split_cons "/" s) as [first [others Hs]].
    rewrite Hs in *.
    change (join "/" (EmptyString :: first :: others))
      with (String "/" (join "/" (first :: others))).
    rewrite IH. reflexivity.
  - destruct (split_cons "/" s) as [first [others Hs]].
    rewrite Hs in *. rewrite join_cons_char, IH. reflexivity.
Qed.

(** The first piece holds no separator; there are further pieces exactly
    when the string holds one. *)
Lemma split_first (s : string) :
  exists first others,
    split "/" s = first :: others
    /\ hasSlash first = false
    /\ (hasSlash s = false -> first = s /\ others = [])
    /\ (hasSlash s = true ->
        s = String.append first (String "/" (join "/" others))).
Proof.
  induction s as [|c s [first [others [Hs [Hfirst [Hnone Hsome]]]]]].
  - exists EmptyString, []. repeat split. discriminate.
  - cbn [split]. unfold hasSlash in *. cbn [list_ascii_of_string existsb].
    destruct (Ascii.eqb c "/") eqn:Hc.
    + apply Ascii.eqb_eq in Hc. subst c.
      exists EmptyString, (split "/" s).
      split; [reflexivity|]. split; [reflexivity|].
      split; [discriminate|].
      intros _. rewrite join_split. reflexivity.
    + rewrite Hs. exists (String c first), others.
      split; [reflexivity|].
      split; [cbn [list_ascii_of_string existsb]; rewrite Hc; exact Hfirst|].
      cbn [orb]. split.
      * intro H. destruct (Hnone H) as [-> ->]. split; reflexivity.
      * intro H. rewrite (Hsome H) at 1. reflexivity.
Qed.

Lemma split_bucket (bucket key : string) :
  hasSlash bucket = false ->
  split "/" (String.append bucket (String "/" key)) = bucket :: split "/" key.
Proof.
  unfold hasSlash.
  induction bucket as [|c bucket IH]; intro H; [reflexivity|].
  cbn [list_ascii_of_string existsb] in H.
  apply orb_false_iff in H as [Hc H].
  cbn [String.append split]. rewrite Hc, (IH H). reflexivity.
Qed.

(** X18.  [getResultsStream] reads back an object location: for a bucket
    name without slash and any key, slashes included,
    ['s3://' + bucket + '/' + key] gives that bucket and that key. *)
Theorem getResultsStream_of_location (bucket key : string) :
  hasSlash bucket = false ->
  getResultsStream
    (String.append "s3://" (String.append bucket (String "/" key)))
  = {| Bucket := bucket; Key := key |}.
Proof.
  intro Hbucket. unfold getResultsStream.
  change (replace "s3://" ""
                  (String.append "s3://"
                                 (String.append bucket (String "/" key))))
    with (String.append bucket (String "/" key)).
  cbn zeta. rewrite (split_bucket _ _ Hbucket).
  cbn [hd_error tl]. rewrite join_split.
  destruct bucket; reflexivity.
Qed.

Lemma getResultsStream_of_location_witness :
  getResultsStream "s3://bucket/path/to/result.csv"
  = {| Bucket := "bucket"; Key := "path/to/result.csv" |}.
Proof.
  exact (getResultsStream_of_location "bucket" "path/to/result.csv" eq_refl).
Defined.

(** X19.  For any argument, the bucket [getResultsStream] asks for holds
    no slash; when the argument, once the first ['s3://'] is removed,
    holds a slash, it is the bucket, a slash and the key; otherwise it is
    the bucket and the key is empty. *)
Theorem getResultsStream_parts (s3Uri : string) :
  hasSlash (Bucket (getResultsStream s3Uri)) = false
  /\ (hasSlash (replace "s3://" "" s3Uri) = true ->
      replace "s3://" "" s3Uri
      = String.append (Bucket (getResultsStream s3Uri))
                      (String "/" (Key (getResultsStream s3Uri))))
  /\ (hasSlash (replace "s3://" "" s3Uri) = false ->
      Bucket (getResultsStream s3Uri) = replace "s3://" "" s3Uri
      /\ Key (getResultsStream s3Uri) = "").
Proof.
  unfold getResultsStream. cbn zeta.
  destruct (split_first (replace "s3://" "" s3Uri))
    as [first [others [Hs [Hfirst [Hnone Hsome]]]]].
  rewrite Hs. cbn [hd_error tl Bucket Key].
  assert (JS.or_str (Some first) "" = first) as -> by (destruct first; reflexivity).
  split; [exact Hfirst|]. split.
  - exact Hsome.
  - intro H. destruct (Hnone H) as [-> ->]. split; reflexivity.
Qed.

Lemma getResultsStream_parts_witness :
  getResultsStream "s3://bucket" = {| Bucket := "bucket"; Key := "" |}
  /\ Bucket (getResultsStream "bucket/a/b") = "bucket"
  /\ "bucket/a/b"
     = String.append (Bucket (getResultsStream "bucket/a/b"))
                     (String "/" (Key (getResultsStream "bucket/a/b"))).
Proof.
  split; [reflexivity|]. split; [reflexivity|].
  destruct (getResultsStream_parts "bucket/a/b") as [_ [Hsome _]].
  exact (Hsome eq_refl).
Defined.
